(** * clusterloader2: the Poisson tuning set and the etcd-metrics measurement

    A shallow embedding of
    - [clusterloader2/pkg/tuningset/poisson_load.go]
      ([interArrivalTime], [poissonLoad.Execute]), and
    - [clusterloader2/pkg/measurement/common/etcd_metrics.go]
      ([etcdMetricsMeasurement.Execute] and what it calls),
    with the properties the specification states about them.

    Conventions of the embedding.
    - In [poisson_load.go] a [float64] is a binary64 number of Rocq's
      primitive floats: [-], [/] and [*] round to nearest even as IEEE 754
      prescribes, each operation on its own (no fused multiply-add, as on
      amd64), and [math.Log] is the algorithm of Go's standard library.
      The real number a [float64] denotes is [F2R].
    - In [etcd_metrics.go] the only arithmetic on a [float64] is [math.Max];
      the database sizes are modelled by the real numbers they denote.
    - [int], [int64] and [time.Duration] are integers in the range
      [minInt64 .. maxInt64] ([int] is 64 bits wide on the modelled
      architectures); a [time.Time] is an integer count of nanoseconds.
    - The process-wide random source, the wall clock and the Go scheduler are
      explicit: a stream of uniform draws, a stream of latencies and a list
      of scheduling choices. *)

From Stdlib Require Import Reals Zfloor Lra Lia ZArith List Bool Sorted Permutation.
From Stdlib Require Import Floats.
From Stdlib Require String.
Import ListNotations.

(** ** Go's numeric types and conversions *)

Module Go.

Definition minInt64 : Z := (- 2 ^ 63)%Z.
Definition maxInt64 : Z := (2 ^ 63 - 1)%Z.

Definition inInt64 (z : Z) : bool := ((minInt64 <=? z) && (z <=? maxInt64))%Z.

(** A [float64]: an IEEE 754 binary64 number.  [Prim2SF] gives its sign,
    mantissa and exponent. *)
Definition float64 := float.

(** The architectures the binary is built for.  The language leaves the
    result of converting a [float64] that the integer type cannot represent
    to the implementation: amd64's [CVTTSD2SQ] yields the "integer
    indefinite" value [0x8000000000000000], arm64's [FCVTZS] saturates and
    maps a NaN to zero. *)
Inductive GOARCH := amd64 | arm64.

Definition float64_to_int_overflow (arch : GOARCH) (x : spec_float) : Z :=
  match arch with
  | amd64 => minInt64
  | arm64 =>
      match x with
      | S754_nan => 0%Z
      | S754_zero s | S754_infinity s | S754_finite s _ _ =>
          if s then minInt64 else maxInt64
      end
  end.

(** The whole part of [m * 2^e]. *)
Definition magnitude (m : positive) (e : Z) : Z :=
  if (0 <=? e)%Z then (Zpos m * 2 ^ e)%Z else (Zpos m / 2 ^ (- e))%Z.

(** "When converting a floating-point number to an integer, the fraction is
    discarded (truncation towards zero)."  Infinities and NaN have no whole
    part. *)
Definition truncate (x : spec_float) : option Z :=
  match x with
  | S754_zero _ => Some 0%Z
  | S754_finite s m e =>
      Some (if s then (- magnitude m e)%Z else magnitude m e)
  | S754_infinity _ | S754_nan => None
  end.

(** The conversion [int(x)] of a [float64] [x]. *)
Definition int_of_float64 (arch : GOARCH) (x : float64) : Z :=
  match truncate (Prim2SF x) with
  | Some z =>
      if inInt64 z then z else float64_to_int_overflow arch (Prim2SF x)
  | None => float64_to_int_overflow arch (Prim2SF x)
  end.

(** The conversion [float64(n)] of an integer, rounded to nearest even. *)
Definition float64_of_int (n : Z) : float64 :=
  if (n <? 0)%Z then (- of_uint63 (Uint63.of_Z (- n)))%float
  else of_uint63 (Uint63.of_Z n).

(** [math.Frexp] on a finite number other than zero: [x = frac * 2^exp]
    with [frac] in [1/2, 1). *)
Definition Frexp (x : float64) : float64 * Z := Z.frexp x.

(** [math.Log], as [math/log.go] of Go's standard library computes it (the
    method of FreeBSD's [e_log.c]): the argument is reduced to
    [2^k * (1 + f)] with [sqrt(2)/2 < 1 + f < sqrt(2)], and [log(1 + f)] is
    approximated by a polynomial in [s = f / (2 + f)]. *)
Definition Ln2Hi : float64 := 0x1.62e42fee00000p-1%float.
Definition Ln2Lo : float64 := 0x1.a39ef35793c76p-33%float.
Definition L1 : float64 := 0x1.5555555555593p-1%float.
Definition L2 : float64 := 0x1.999999997fa04p-2%float.
Definition L3 : float64 := 0x1.2492494229359p-2%float.
Definition L4 : float64 := 0x1.c71c51d8e78afp-3%float.
Definition L5 : float64 := 0x1.7466496cb03dep-3%float.
Definition L6 : float64 := 0x1.39a09d078c69fp-3%float.
Definition L7 : float64 := 0x1.2f112df3e5244p-3%float.

(** [Sqrt2 / 2], a constant expression, as a [float64]. *)
Definition HalfSqrt2 : float64 := 0x1.6a09e667f3bcdp-1%float.

Definition Log (x : float64) : float64 :=
  (* special cases *)
  if is_nan x then x
  else if (x =? infinity)%float then x
  else if (x <? 0)%float then nan
  else if (x =? 0)%float then neg_infinity
  else
    (* reduce *)
    let (f1, ki) := Frexp x in
    let (f1, ki) :=
      if (f1 <? HalfSqrt2)%float then ((f1 * 2)%float, (ki - 1)%Z)
      else (f1, ki) in
    let f := (f1 - 1)%float in
    let k := float64_of_int ki in
    (* compute *)
    let s := (f / (2 + f))%float in
    let s2 := (s * s)%float in
    let s4 := (s2 * s2)%float in
    let t1 := (s2 * (L1 + s4 * (L3 + s4 * (L5 + s4 * L7))))%float in
    let t2 := (s4 * (L2 + s4 * (L4 + s4 * L6)))%float in
    let R := (t1 + t2)%float in
    let hfsq := (0.5 * f * f)%float in
    (k * Ln2Hi - ((hfsq - (s * (hfsq + R) + k * Ln2Lo)) - f))%float.

(** The number [2^63], the first [float64] above every [int64]. *)
Definition two63 : float64 := 0x1p63%float.

(** The real number a [float64] denotes; infinities and NaN, which denote
    none, are given 0. *)
Definition bpow2 (e : Z) : R :=
  if (0 <=? e)%Z then IZR (2 ^ e) else (/ IZR (2 ^ (- e)))%R.

Definition SF2R (x : spec_float) : R :=
  match x with
  | S754_finite s m e => (IZR (cond_Zopp s (Zpos m)) * bpow2 e)%R
  | _ => 0%R
  end.

Definition F2R (x : float64) : R := SF2R (Prim2SF x).

(** Truncation toward zero of a real number. *)
Definition Rtrunc (x : R) : Z :=
  if Rle_dec 0 x then Zfloor x else (- Zfloor (- x))%Z.

(** Signs: a zero, a positive finite number or the positive infinity; the
    same or a NaN; a positive finite number or the positive infinity. *)
Definition nonneg (x : spec_float) : Prop :=
  match x with
  | S754_zero _ => True
  | S754_finite s _ _ | S754_infinity s => s = false
  | S754_nan => False
  end.

Definition nonneg_or_nan (x : spec_float) : Prop :=
  match x with
  | S754_nan => True
  | _ => nonneg x
  end.

Definition above_zero (x : spec_float) : Prop :=
  match x with
  | S754_finite s _ _ | S754_infinity s => s = false
  | S754_zero _ | S754_nan => False
  end.

End Go.

(** ** Fixed-point squaring

    Bounds on [ln 2] are computed by squaring [1 + x <= exp x] repeatedly,
    in integers at the scale [2^200]. *)

Module Ln2.





End Ln2.

(** ** Package [time] *)

Module Time.

(** A [time.Duration] is an [int64] count of nanoseconds. *)
Definition Duration := Z.

Definition Nanosecond : Duration := 1%Z.
Definition Second : Duration := (1000000000 * Nanosecond)%Z.

Definition minDuration : Duration := Go.minInt64.
Definition maxDuration : Duration := Go.maxInt64.

(** A [time.Time], in nanoseconds on the monotonic clock. *)
Definition Time := Z.

(** [t.Add(d)]. *)
Definition Add (t : Time) (d : Duration) : Time := (t + d)%Z.

(** [t.Sub(u)]: "If the result exceeds the maximum (or minimum) value that
    can be stored in a Duration, the maximum (or minimum) duration will be
    returned." *)
Definition Sub (t u : Time) : Duration :=
  Z.max minDuration (Z.min maxDuration (t - u)).

(** [time.Until(t)], with the clock reading [now]: [t.Sub(time.Now())]. *)
Definition Until (now t : Time) : Duration := Sub t now.

End Time.

(** ** Package [math/rand]: the process-wide source *)

Module Rand.

(** The source is a stream of draws and the number of draws taken so far. *)
Record Source := { stream : nat -> Go.float64; taken : nat }.

(** [rand.Float64()]: the next draw, and the source advanced by one. *)
Definition Float64 (src : Source) : Go.float64 * Source :=
  (stream src (taken src), {| stream := stream src; taken := S (taken src) |}).


(** The source whose every draw is [p]. *)
Definition constant (p : Go.float64) : Source :=
  {| stream := fun _ => p; taken := 0 |}.

End Rand.

(** ** [poisson_load.go] *)

Module PoissonLoad.

Import Go Time.

Section InterArrival.

Variable arch : GOARCH.

(** [func interArrivalTime(MeanRate float64) time.Duration] *)
Definition interArrivalTime (MeanRate : float64) (src : Rand.Source)
  : Duration * Rand.Source :=
  let (p, src') := Rand.Float64 src in
  let actionInterArrrivalTime :=
    int_of_float64 arch
      (float64_of_int Second * (- Log (1 - p) / MeanRate))%float in
  (actionInterArrrivalTime, src').

End InterArrival.

(** *** The dispatch loop

    [Execute] runs on one goroutine (the driver) and starts one goroutine per
    action.  The embedding makes the interleaving explicit: a run is a list of
    scheduling choices, each either one step of the driver or the return of
    one of the running actions. *)

(** [api.PoissonLoad]: the one field [Execute] reads. *)
Record PoissonLoad := { ExpectedActionsPerSecond : float64 }.

(** [type poissonLoad struct { params *api.PoissonLoad }] *)
Record poissonLoad := { params : PoissonLoad }.

Definition newPoissonLoad (params : PoissonLoad) : poissonLoad :=
  {| params := params |}.

(** The wall clock as the driver meets it: [latency w k] is the time that
    passes, beyond what the driver asks for, before its [k]-th reading of or
    wake-up by the clock. *)
Record World := { latency : nat -> N }.

(** [time.Sleep(d)], started at [t]: "A negative or zero duration causes
    Sleep to return immediately"; otherwise the goroutine is runnable again
    at [t + d]. *)
Definition Sleep (d : Duration) (t : Time) : Time := (t + Z.max 0 d)%Z.

Section Execute.

Variable arch : GOARCH.

(** An action, [func()], is opaque. *)
Variable Action : Type.

(** Where the driver stands: in the [for] loop with the actions still to be
    launched, in [wg.Wait()], or back in its caller. *)
Inductive Phase :=
| Scheduling (pending : list Action)
| Draining
| Returned.

(** One call of [wg.Start]: the action, the value of [actionNextLaunch] it
    was scheduled for, and the clock when it was started. *)
Record Launch := { action : Action; due : Time; launchedAt : Time }.

(** One call of [time.Sleep(time.Until(actionNextLaunch))]: the clock read by
    [time.Until], the value of [actionNextLaunch], and the duration handed to
    [time.Sleep]. *)
Record Pause := { calledAt : Time; target : Time; requested : Duration }.

Record State := {
  phase : Phase;
  now : Time;                  (* the clock *)
  readings : nat;              (* latencies of the world used so far *)
  actionNextLaunch : Time;
  source : Rand.Source;        (* the process-wide random source *)
  wg : nat;                    (* the counter of the wait.Group *)
  running : list nat;          (* started goroutines that have not returned,
                                  by position of their action *)
  completed : list nat;        (* goroutines that returned, oldest first *)
  launches : list Launch;      (* oldest first *)
  pauses : list Pause          (* oldest first *)
}.

Variable rl : poissonLoad.
Variable w : World.

(** [var wg wait.Group; actionNextLaunch := time.Now()], at clock [t0]. *)
Definition Execute_enter (t0 : Time) (src : Rand.Source)
  (actions : list Action) : State :=
  {| phase := Scheduling actions;
     now := t0;
     readings := 0;
     actionNextLaunch := t0;
     source := src;
     wg := 0;
     running := [];
     completed := [];
     launches := [];
     pauses := [] |}.

(** One step of the driver: one iteration of the loop, the exit from the
    loop into [wg.Wait()], or the return of [wg.Wait()], which happens only
    when the counter is zero.

    [wg.Start(f)] of [k8s.io/apimachinery/pkg/util/wait] is
    [wg.Add(1); go func() { defer wg.Done(); f() }()]. *)
Definition drive (s : State) : State :=
  match phase s with
  | Scheduling [] =>
      {| phase := Draining;
         now := now s; readings := readings s;
         actionNextLaunch := actionNextLaunch s; source := source s;
         wg := wg s; running := running s; completed := completed s;
         launches := launches s; pauses := pauses s |}
  | Scheduling (a :: rest) =>
      (* time.Until(actionNextLaunch) *)
      let t1 := (now s + Z.of_N (latency w (readings s)))%Z in
      let d := Until t1 (actionNextLaunch s) in
      (* time.Sleep(d) *)
      let t2 := (Sleep d t1 + Z.of_N (latency w (S (readings s))))%Z in
      (* wg.Start(actions[i]) *)
      let i := length (launches s) in
      (* actionNextLaunch.Add(interArrivalTime(...)) *)
      let (iat, src') :=
        interArrivalTime arch (ExpectedActionsPerSecond (params rl)) (source s) in
      {| phase := Scheduling rest;
         now := t2; readings := S (S (readings s));
         actionNextLaunch := Add (actionNextLaunch s) iat; source := src';
         wg := S (wg s); running := running s ++ [i]; completed := completed s;
         launches := launches s ++
           [{| action := a; due := actionNextLaunch s; launchedAt := t2 |}];
         pauses := pauses s ++
           [{| calledAt := t1; target := actionNextLaunch s; requested := d |}] |}
  | Draining =>
      if Nat.eqb (wg s) 0 then
        {| phase := Returned;
           now := now s; readings := readings s;
           actionNextLaunch := actionNextLaunch s; source := source s;
           wg := wg s; running := running s; completed := completed s;
           launches := launches s; pauses := pauses s |}
      else s
  | Returned => s
  end.

(** The goroutine at position [k] among the running ones returns from its
    action; its deferred [wg.Done()] decrements the counter. *)
Definition finish (k : nat) (s : State) : State :=
  match nth_error (running s) k with
  | None => s
  | Some i =>
      {| phase := phase s;
         now := now s; readings := readings s;
         actionNextLaunch := actionNextLaunch s; source := source s;
         wg := pred (wg s);
         running := firstn k (running s) ++ skipn (S k) (running s);
         completed := completed s ++ [i];
         launches := launches s; pauses := pauses s |}
  end.

(** What the Go scheduler lets happen next. *)
Inductive Choice := Drive | Finish (k : nat).

Definition step (s : State) (c : Choice) : State :=
  match c with
  | Drive => drive s
  | Finish k => finish k s
  end.

Definition run (sched : list Choice) (s : State) : State :=
  fold_left step sched s.

(** [rl.Execute(actions)], entered at clock [t0], under the schedule
    [sched]. *)
Definition Execute (t0 : Time) (src : Rand.Source) (actions : list Action)
  (sched : list Choice) : State :=
  run sched (Execute_enter t0 src actions).

(** The number of steps the driver takes in a schedule. *)
Definition driverSteps (sched : list Choice) : nat :=
  length (filter (fun c => match c with Drive => true | Finish _ => false end) sched).

(** The [j]-th inter-arrival sample drawn after entering with source [src],
    and the start instant plus the sum of the first [i] samples. *)
Definition sample (src : Rand.Source) (j : nat) : Duration :=
  fst (interArrivalTime arch (ExpectedActionsPerSecond (params rl))
         {| Rand.stream := Rand.stream src; Rand.taken := Rand.taken src + j |}).

Definition schedulePoint (t0 : Time) (src : Rand.Source) (i : nat) : Time :=
  (t0 + fold_right Z.add 0 (map (sample src) (seq 0 i)))%Z.

End Execute.

Arguments Scheduling {Action} pending.
Arguments Draining {Action}.
Arguments Returned {Action}.
Arguments action {Action} l.
Arguments due {Action} l.
Arguments launchedAt {Action} l.
Arguments phase {Action} s.
Arguments now {Action} s.
Arguments readings {Action} s.
Arguments actionNextLaunch {Action} s.
Arguments source {Action} s.
Arguments wg {Action} s.
Arguments running {Action} s.
Arguments completed {Action} s.
Arguments launches {Action} s.
Arguments pauses {Action} s.
Arguments Execute_enter {Action} t0 src actions.
Arguments drive arch {Action} rl w s.
Arguments finish {Action} k s.
Arguments step arch {Action} rl w s c.
Arguments run arch {Action} rl w sched s.
Arguments Execute arch {Action} rl w t0 src actions sched.

(** The actions the loop has not reached yet. *)
Definition pending {Action : Type} (ph : Phase Action) : list Action :=
  match ph with
  | Scheduling rest => rest
  | Draining | Returned => []
  end.

(** A run of two actions: both are started, the first returns while the
    driver is in the loop, the second while it waits. *)
Definition twoActions : list Choice :=
  [Drive; Finish 0; Drive; Drive; Drive; Finish 0; Drive].

(** The schedule under which every action returns as soon as it is started. *)
Definition eager {Action : Type} (actions : list Action) : list Choice :=
  flat_map (fun _ => [Drive; Finish 0]) actions ++ [Drive; Drive].

Definition unitRate : poissonLoad :=
  newPoissonLoad {| ExpectedActionsPerSecond := 1%float |}.

Definition promptWorld : World := {| latency := fun _ => 0%N |}.

(** The [float64] that [interArrivalTime] converts to an integer, for the
    mean rate [MeanRate] and the draw [p]. *)
Definition computedNanos (MeanRate p : float64) : float64 :=
  (float64_of_int Second * (- Log (1 - p) / MeanRate))%float.

(** The specification's words, over the real numbers: the sample
    [-ln(1 - p) / meanRate], in seconds, and the distribution function of the
    exponential distribution of rate [r]. *)
Definition exponentialSample (meanRate p : R) : R := (- ln (1 - p) / meanRate)%R.

(** The same sample in nanoseconds, before it is made an integer. *)
Definition sampleNanos (meanRate p : R) : R :=
  (IZR Second * exponentialSample meanRate p)%R.

End PoissonLoad.

(** ** [etcd_metrics.go] *)

Module EtcdMetrics.

Import Time String.

(** A Go [error] is modelled by its message. *)
Definition error := string.

(** A Go result [(v, err)] of which the caller reads [v] only when [err] is
    [nil]. *)
Inductive result (A : Type) :=
| Ok (v : A)
| Err (err : error).

Arguments Ok {A} v.
Arguments Err {A} err.

(** [measurementutil.SSHResult]: the fields [getEtcdMetrics] reads. *)
Record SSHResult := { Code : Z; Stdout : string }.

(** What [Execute] and the functions it calls use of other packages, none of
    them among the sources: the type of [config.Params] and the lookups of
    [clusterloader2/pkg/util] on it, the cluster configuration of
    [clusterloader2/pkg/measurement], the samples of
    [prometheus/common/model], and the SSH and histogram helpers of
    [clusterloader2/pkg/measurement/util]. *)
Record Packages := {
  Params : Type;
  GetString : Params -> string -> result string;
  GetStringOrDefault : Params -> string -> string -> result string;
  GetDurationOrDefault : Params -> string -> Duration -> result Duration;
  ClusterConfig_Provider : string;
  ClusterConfig_MasterIP : string;
  Sample : Type;
  (* sample.Metric[model.MetricNameLabel] and float64(sample.Value) *)
  MetricName : Sample -> string;
  Value : Sample -> R;
  (* SSH(cmd, host, provider) *)
  SSH : string -> string -> string -> SSHResult * option error;
  ExtractMetricSamples : string -> result (list Sample);
  HistogramVec : Type;
  (* make(measurementutil.HistogramVec, 0) *)
  emptyHistogramVec : HistogramVec;
  (* ConvertSampleToBucket(sample, &h), as the new value of h *)
  ConvertSampleToBucket : Sample -> HistogramVec -> HistogramVec;
  (* fmt.Errorf("unexpected error (code: %d) in ssh connection to master: %#v",
                code, err) *)
  sshErrorf : Z -> option error -> error
}.

Definition etcdMetricsMetricName : string := "EtcdMetrics"%string.

(** [fmt.Errorf("unknown action %v", action)] *)
Definition unknownActionErrorf (action : string) : error :=
  String.append "unknown action "%string action.

Definition Minute : Duration := (60 * Second)%Z.

Section Measurement.

Variable pkg : Packages.

(** [type etcdMetrics struct] *)
Record etcdMetrics := {
  BackendCommitDuration : HistogramVec pkg;
  SnapshotSaveTotalDuration : HistogramVec pkg;
  PeerRoundTripTime : HistogramVec pkg;
  WalFsyncDuration : HistogramVec pkg;
  MaxDatabaseSize : R
}.

Definition newEtcdMetrics : etcdMetrics :=
  {| BackendCommitDuration := emptyHistogramVec pkg;
     SnapshotSaveTotalDuration := emptyHistogramVec pkg;
     PeerRoundTripTime := emptyHistogramVec pkg;
     WalFsyncDuration := emptyHistogramVec pkg;
     MaxDatabaseSize := 0 |}.

(** [func (e *etcdMetrics) SummaryName() string] *)
Definition SummaryName (m : etcdMetrics) : string := etcdMetricsMetricName.

(** A [measurement.Summary] returned by [Execute]: the metrics [e.metrics]
    points to. *)
Definition Summary := etcdMetrics.

(** A goroutine started by [startCollecting]. *)
Record Collector := {
  collectorProvider : string;
  collectorHost : string;
  collectorInterval : Duration
}.

(** [type etcdMetricsMeasurement struct]: the channel [stopCh] (only ever
    closed), the counter of the wait group [wg] with the goroutines it
    counts, and the metrics. *)
Record etcdMetricsMeasurement := {
  stopChClosed : bool;
  wg : nat;
  collectors : list Collector;
  metrics : etcdMetrics
}.

Definition createEtcdMetricsMeasurement : etcdMetricsMeasurement :=
  {| stopChClosed := false; wg := 0; collectors := []; metrics := newEtcdMetrics |}.

(** [measurement.MeasurementConfig]: the field [Execute] reads. *)
Record MeasurementConfig := { ConfigParams : Params pkg }.

(** [func getEtcdMetrics(provider, host string) ([]*model.Sample, error)] *)
Definition getEtcdMetrics (provider host : string) : result (list (Sample pkg)) :=
  if String.eqb provider "gke"%string then Ok []
  else
    let cmd := "curl http://localhost:2379/metrics"%string in
    let (sshResult, err) := SSH pkg cmd (String.append host ":22"%string) provider in
    match err with
    | Some _ => Err (sshErrorf pkg (Code sshResult) err)
    | None =>
        if negb (Z.eqb (Code sshResult) 0)
        then Err (sshErrorf pkg (Code sshResult) err)
        else ExtractMetricSamples pkg (Stdout sshResult)
    end.

(** [func getEtcdDatabaseSize(provider, host string) (float64, error)] *)
Definition getEtcdDatabaseSize (provider host : string) : result R :=
  match getEtcdMetrics provider host with
  | Err err => Err err
  | Ok samples =>
      match
        find (fun sample =>
                String.eqb (MetricName pkg sample)
                  "etcd_debugging_mvcc_db_total_size_in_bytes"%string)
             samples
      with
      | Some sample => Ok (Value pkg sample)
      | None => Err "Couldn't find etcd database size metric"%string
      end
  end.

(** [startCollecting]: [e.wg.Add(1)] and the start of the goroutine. *)
Definition startCollecting (e : etcdMetricsMeasurement)
  (provider host : string) (interval : Duration) : etcdMetricsMeasurement :=
  {| stopChClosed := stopChClosed e;
     wg := S (wg e);
     collectors := collectors e ++
       [{| collectorProvider := provider; collectorHost := host;
           collectorInterval := interval |}];
     metrics := metrics e |}.

(** One turn of a collecting goroutine through the branch
    [case <-time.After(interval)]. *)
Definition collect (c : Collector) (e : etcdMetricsMeasurement)
  : etcdMetricsMeasurement :=
  match getEtcdDatabaseSize (collectorProvider c) (collectorHost c) with
  | Err _ => e
  | Ok dbSize =>
      {| stopChClosed := stopChClosed e; wg := wg e; collectors := collectors e;
         metrics :=
           {| BackendCommitDuration := BackendCommitDuration (metrics e);
              SnapshotSaveTotalDuration := SnapshotSaveTotalDuration (metrics e);
              PeerRoundTripTime := PeerRoundTripTime (metrics e);
              WalFsyncDuration := WalFsyncDuration (metrics e);
              MaxDatabaseSize := Rmax (MaxDatabaseSize (metrics e)) dbSize |} |}
  end.

(** The body of the loop of [stopAndSummarize] for one sample. *)
Definition summarizeSample (m : etcdMetrics) (sample : Sample pkg) : etcdMetrics :=
  let name := MetricName pkg sample in
  if String.eqb name "etcd_disk_backend_commit_duration_seconds_bucket"%string then
    {| BackendCommitDuration :=
         ConvertSampleToBucket pkg sample (BackendCommitDuration m);
       SnapshotSaveTotalDuration := SnapshotSaveTotalDuration m;
       PeerRoundTripTime := PeerRoundTripTime m;
       WalFsyncDuration := WalFsyncDuration m;
       MaxDatabaseSize := MaxDatabaseSize m |}
  else if String.eqb name
            "etcd_debugging_snap_save_total_duration_seconds_bucket"%string then
    {| BackendCommitDuration := BackendCommitDuration m;
       SnapshotSaveTotalDuration :=
         ConvertSampleToBucket pkg sample (SnapshotSaveTotalDuration m);
       PeerRoundTripTime := PeerRoundTripTime m;
       WalFsyncDuration := WalFsyncDuration m;
       MaxDatabaseSize := MaxDatabaseSize m |}
  else if String.eqb name "etcd_disk_wal_fsync_duration_seconds_bucket"%string then
    {| BackendCommitDuration := BackendCommitDuration m;
       SnapshotSaveTotalDuration := SnapshotSaveTotalDuration m;
       PeerRoundTripTime := PeerRoundTripTime m;
       WalFsyncDuration := ConvertSampleToBucket pkg sample (WalFsyncDuration m);
       MaxDatabaseSize := MaxDatabaseSize m |}
  else if String.eqb name
            "etcd_network_peer_round_trip_time_seconds_bucket"%string then
    {| BackendCommitDuration := BackendCommitDuration m;
       SnapshotSaveTotalDuration := SnapshotSaveTotalDuration m;
       PeerRoundTripTime :=
         ConvertSampleToBucket pkg sample (PeerRoundTripTime m);
       WalFsyncDuration := WalFsyncDuration m;
       MaxDatabaseSize := MaxDatabaseSize m |}
  else m.

(** How a call ends: it returns, or it panics. *)
Inductive outcome (A : Type) :=
| Returns (v : A)
| Panics (why : string).

Arguments Returns {A} v.
Arguments Panics {A} why.

(** The turns through the branch [case <-time.After(interval)] that the
    collecting goroutines take: each entry of [turns] names a goroutine by
    its position among the collectors, and one that names none is no turn.
    The goroutines run beside the calls of [Execute]; the one call that
    waits for them is a gather, in [e.wg.Wait()]. *)
Definition collecting (turns : list nat) (e : etcdMetricsMeasurement)
  : etcdMetricsMeasurement :=
  fold_left
    (fun e k =>
       match nth_error (collectors e) k with
       | Some c => collect c e
       | None => e
       end)
    turns e.

(** [stopAndSummarize]: [close(e.stopCh)] panics on a closed channel.
    [e.wg.Wait()] returns once every collecting goroutine has taken the
    branch [case <-e.stopCh] and run its deferred [e.wg.Done()]; until then a
    goroutine that is in, or still chooses, the other branch of its [select]
    writes [e.metrics.MaxDatabaseSize].  [inFlight] lists those turns, in the
    order they end. *)
Definition stopAndSummarize (inFlight : list nat) (e : etcdMetricsMeasurement)
  (provider host : string) : outcome (etcdMetricsMeasurement * option error) :=
  if stopChClosed e then Panics "close of closed channel"%string
  else
    (* close(e.stopCh); e.wg.Wait() *)
    let waited := collecting inFlight e in
    let stopped m :=
      {| stopChClosed := true;
         wg := wg e - List.length (collectors e);
         collectors := [];
         metrics := m |} in
    match getEtcdMetrics provider host with
    | Err err => Returns (stopped (metrics waited), Some err)
    | Ok samples =>
        Returns (stopped (fold_left summarizeSample samples (metrics waited)), None)
    end.

(** [func (e *etcdMetricsMeasurement) Execute(config
    *measurement.MeasurementConfig) ([]measurement.Summary, error)]: what is
    returned, and the measurement as the call leaves it.  [inFlight] is what
    the collecting goroutines still do while a gather waits for them. *)
Definition Execute (inFlight : list nat) (e : etcdMetricsMeasurement)
  (config : MeasurementConfig)
  : outcome (list Summary * option error * etcdMetricsMeasurement) :=
  let summaries : list Summary := [] in
  match GetString pkg (ConfigParams config) "action"%string with
  | Err err => Returns (summaries, Some err, e)
  | Ok action =>
  match GetStringOrDefault pkg (ConfigParams config) "provider"%string
          (ClusterConfig_Provider pkg) with
  | Err err => Returns (summaries, Some err, e)
  | Ok provider =>
  match GetStringOrDefault pkg (ConfigParams config) "host"%string
          (ClusterConfig_MasterIP pkg) with
  | Err err => Returns (summaries, Some err, e)
  | Ok host =>
      if String.eqb action "start"%string then
        match GetDurationOrDefault pkg (ConfigParams config) "waitTime"%string
                Minute with
        | Err err => Returns (summaries, Some err, e)
        | Ok waitTime =>
            Returns (summaries, None, startCollecting e provider host waitTime)
        end
      else if String.eqb action "gather"%string then
        match stopAndSummarize inFlight e provider host with
        | Panics why => Panics why
        | Returns (e', Some err) => Returns (summaries, Some err, e')
        | Returns (e', None) => Returns (summaries ++ [metrics e'], None, e')
        end
      else Returns (summaries, Some (unknownActionErrorf action), e)
  end end end.

End Measurement.

Arguments Returns {A} v.
Arguments Panics {A} why.

(** *** An instance of the packages

    Parameters are a map from names to dynamically typed values, as a test
    configuration gives them.  A lookup fails when the key is absent and no
    default is given, and when the value is not of the type asked for; the
    master answers no command. *)

Local Open Scope string_scope.

Inductive Dyn :=
| DString (s : string)
| DInt (n : Z).

Fixpoint lookup (m : list (string * Dyn)) (key : string) : option Dyn :=
  match m with
  | [] => None
  | (k, v) :: m' => if String.eqb k key then Some v else lookup m' key
  end.

Definition getString (m : list (string * Dyn)) (key : string)
  (defaultValue : option string) : result string :=
  match lookup m key with
  | None =>
      match defaultValue with
      | Some d => Ok d
      | None => Err (String.append "key not found: " key)
      end
  | Some (DString s) => Ok s
  | Some (DInt _) =>
      Err (String.append "type assertion error: not a string: " key)
  end.

Definition getDuration (m : list (string * Dyn)) (key : string)
  (defaultValue : Duration) : result Duration :=
  match lookup m key with
  | None => Ok defaultValue
  | Some (DInt n) => Ok n
  | Some (DString _) =>
      Err (String.append "type assertion error: not a duration: " key)
  end.

Definition examplePackages : Packages :=
  {| Params := list (string * Dyn);
     GetString := fun m key => getString m key None;
     GetStringOrDefault := fun m key d => getString m key (Some d);
     GetDurationOrDefault := getDuration;
     ClusterConfig_Provider := "gce";
     ClusterConfig_MasterIP := "10.0.0.1";
     Sample := string * R;
     MetricName := fst;
     Value := snd;
     SSH := fun _ _ _ => ({| Code := 255; Stdout := EmptyString |},
                          Some "ssh: connection refused");
     ExtractMetricSamples := fun _ => Ok [];
     HistogramVec := list (string * R);
     emptyHistogramVec := [];
     ConvertSampleToBucket := fun sample h => (h ++ [sample])%list;
     sshErrorf := fun _ _ => "unexpected error in ssh connection to master" |}.

(** Two configurations with the action ["restart"]: one that says nothing
    else, and one whose provider is a number. *)
Definition restartConfig : MeasurementConfig examplePackages :=
  Build_MeasurementConfig examplePackages [("action", DString "restart")].

Definition restartConfigBadProvider : MeasurementConfig examplePackages :=
  Build_MeasurementConfig examplePackages
    [("action", DString "restart"); ("provider", DInt 7)].

End EtcdMetrics.

(** * Properties *)

(** ** Bounds on [ln 2] *)

Module Ln2Facts.

Import Ln2.

Local Open Scope R_scope.







End Ln2Facts.

(** ** Conversions and signs of binary64 numbers *)

Module GoFacts.

Import Go.

Local Open Scope R_scope.

Lemma Rtrunc_nonneg (x : R) : 0 <= x -> Rtrunc x = Zfloor x.
Proof.
  intros Hx. unfold Rtrunc. destruct (Rle_dec 0 x); [reflexivity | contradiction].
Qed.

Lemma Rtrunc_IZR (z : Z) : Rtrunc (IZR z) = z.
Proof.
  unfold Rtrunc. destruct (Rle_dec 0 (IZR z)).
  - apply Zfloor_eq. lra.
  - rewrite <- opp_IZR. rewrite (Zfloor_eq (- z) (IZR (- z))) by lra. lia.
Qed.

Lemma inInt64_iff (z : Z) : inInt64 z = true <-> (minInt64 <= z <= maxInt64)%Z.
Proof.
  unfold inInt64. rewrite andb_true_iff, !Z.leb_le. tauto.
Qed.

Lemma int_of_float64_range (arch : GOARCH) (x : float64) :
  (minInt64 <= int_of_float64 arch x <= maxInt64)%Z.
Proof.
  assert (Hov : forall y, (minInt64 <= float64_to_int_overflow arch y <= maxInt64)%Z).
  { intros y. unfold float64_to_int_overflow, minInt64, maxInt64.
    destruct arch; [lia |]. destruct y as [[] | [] | | [] ? ?]; lia. }
  unfold int_of_float64.
  destruct (truncate (Prim2SF x)) as [z |]; [| apply Hov].
  destruct (inInt64 z) eqn:E; [now apply inInt64_iff | apply Hov].
Qed.

Lemma bpow2_pos (e : Z) : 0 < bpow2 e.
Proof.
  unfold bpow2. destruct (0 <=? e)%Z eqn:E.
  - apply IZR_lt. apply Z.leb_le in E. now apply Z.pow_pos_nonneg.
  - apply Rinv_0_lt_compat, IZR_lt. apply Z.leb_gt in E.
    apply Z.pow_pos_nonneg; lia.
Qed.

(** The whole part of [m * 2^e]. *)
Lemma magnitude_bounds (m : positive) (e : Z) :
  (0 <= magnitude m e)%Z /\
  IZR (magnitude m e) <= IZR (Zpos m) * bpow2 e < IZR (magnitude m e) + 1.
Proof.
  unfold magnitude, bpow2.
  destruct (0 <=? e)%Z eqn:E.
  - apply Z.leb_le in E. rewrite <- mult_IZR.
    split; [apply Z.mul_nonneg_nonneg; [lia | now apply Z.pow_nonneg] |].
    generalize (IZR (Z.pos m * 2 ^ e)). intros y. lra.
  - apply Z.leb_gt in E.
    assert (Hk : (0 < 2 ^ (- e))%Z) by (apply Z.pow_pos_nonneg; lia).
    pose proof (Z.div_mod (Zpos m) (2 ^ (- e))) as Hdm.
    pose proof (Z.mod_pos_bound (Zpos m) (2 ^ (- e)) Hk) as Hmod.
    set (k := (2 ^ (- e))%Z) in *. set (q := (Zpos m / k)%Z) in *.
    assert (Hq : (k * q <= Zpos m < k * (q + 1))%Z) by lia.
    assert (HkR : 0 < IZR k) by now apply IZR_lt.
    destruct Hq as [Hq1 Hq2]. apply IZR_le in Hq1. apply IZR_lt in Hq2.
    rewrite mult_IZR in Hq1, Hq2. rewrite plus_IZR in Hq2.
    split; [apply Z.div_pos; lia |].
    split.
    + apply Rmult_le_reg_r with (IZR k); [exact HkR |].
      rewrite Rmult_assoc, Rinv_l by lra. lra.
    + apply Rmult_lt_reg_r with (IZR k); [exact HkR |].
      rewrite Rmult_assoc, Rinv_l by lra. lra.
Qed.

(** *** Signs of the binary64 operations *)

Local Open Scope Z_scope.

Lemma iter_pos_keeps {A : Type} (P : A -> Prop) (f : A -> A) :
  (forall x, P x -> P (f x)) -> forall n x, P x -> P (iter_pos f n x).
Proof. intros Hf n. induction n; intros x Hx; cbn; auto. Qed.

Lemma shr_1_nonneg (mrs : shr_record) : 0 <= shr_m mrs -> 0 <= shr_m (shr_1 mrs).
Proof. destruct mrs as [[| [p | p |] | p] r s]; cbn; lia. Qed.

Lemma shr_nonneg (mrs : shr_record) (e n : Z) :
  0 <= shr_m mrs -> 0 <= shr_m (fst (shr mrs e n)).
Proof.
  destruct n; cbn; auto.
  apply (iter_pos_keeps (fun r => 0 <= shr_m r)). apply shr_1_nonneg.
Qed.

Lemma shr_fexp_nonneg (m e : Z) (l : location) :
  0 <= m -> 0 <= shr_m (fst (shr_fexp prec emax m e l)).
Proof.
  intros H. unfold shr_fexp. apply shr_nonneg. now destruct l as [| []].
Qed.

Lemma round_nearest_even_nonneg (m : Z) (l : location) :
  0 <= m -> 0 <= round_nearest_even m l.
Proof.
  intros H. destruct l as [| []]; cbn [round_nearest_even]; try lia.
  destruct (Z.even m); lia.
Qed.

(** Rounding keeps the sign it is given. *)
Lemma binary_round_aux_sign (sx : bool) (mx ex : Z) (lx : location) :
  0 <= mx ->
  match binary_round_aux prec emax sx mx ex lx with
  | S754_zero s | S754_infinity s | S754_finite s _ _ => s = sx
  | S754_nan => False
  end.
Proof.
  intros H. unfold binary_round_aux.
  pose proof (shr_fexp_nonneg mx ex lx H) as H1.
  destruct (shr_fexp prec emax mx ex lx) as [mrs' e']. cbn [fst] in H1.
  pose proof (shr_fexp_nonneg _ e' loc_Exact
                (round_nearest_even_nonneg _ (loc_of_shr_record mrs') H1)) as H2.
  destruct (shr_fexp prec emax
              (round_nearest_even (shr_m mrs') (loc_of_shr_record mrs')) e'
              loc_Exact) as [mrs'' e''].
  cbn [fst] in H2.
  destruct (shr_m mrs''); [reflexivity | | lia].
  now destruct (e'' <=? emax - prec).
Qed.

Lemma SFdiv_core_binary_nonneg (m1 m2 : positive) (e1 e2 : Z) :
  0 <= fst (fst (SFdiv_core_binary prec emax (Zpos m1) e1 (Zpos m2) e2)).
Proof.
  unfold SFdiv_core_binary. cbv zeta.
  match goal with |- context [Z.div_eucl ?a ?b] =>
    assert (Ha : 0 <= a); [| pose proof (Z.div_pos a b Ha); unfold Z.div in *;
                             destruct (Z.div_eucl a b) as [q r]; cbn; lia]
  end.
  match goal with |- context [match ?s with _ => _ end] => destruct s eqn:Es end;
    try lia.
  apply Z.shiftl_nonneg. lia.
Qed.

Lemma SFdiv_nonneg (x y : spec_float) :
  nonneg x -> above_zero y -> nonneg_or_nan (SF64div x y).
Proof.
  destruct x as [sx | sx | | sx mx ex], y as [sy | sy | | sy my ey];
    cbn; try tauto; try (intros _ ->; now destruct sx); try (intros -> ->; reflexivity).
  intros -> ->. unfold SF64div, SFdiv.
  pose proof (SFdiv_core_binary_nonneg mx my ex ey) as Hq.
  destruct (SFdiv_core_binary prec emax (Z.pos mx) ex (Z.pos my) ey) as [[mz ez] lz].
  cbn [fst] in Hq.
  pose proof (binary_round_aux_sign (xorb false false) mz ez lz Hq) as Hs.
  destruct (binary_round_aux prec emax (xorb false false) mz ez lz); cbn; tauto.
Qed.

Lemma SFmul_nonneg (x y : spec_float) :
  above_zero x -> nonneg_or_nan y -> nonneg_or_nan (SF64mul x y).
Proof.
  destruct x as [sx | sx | | sx mx ex], y as [sy | sy | | sy my ey];
    cbn; try tauto; try (intros -> _; now destruct sy); try (intros -> ->; reflexivity).
  intros -> ->. unfold SF64mul, SFmul.
  pose proof (binary_round_aux_sign (xorb false false) (Zpos (mx * my)) (ex + ey)
                loc_Exact ltac:(lia)) as Hs.
  destruct (binary_round_aux prec emax (xorb false false) (Zpos (mx * my))
              (ex + ey) loc_Exact); cbn; tauto.
Qed.

(** What the comparisons with zero say. *)
Lemma leb_zero_nonpos (x : float64) :
  (x <=? 0)%float = true -> nonneg (SFopp (Prim2SF x)).
Proof.
  rewrite leb_spec.
  replace (Prim2SF 0) with (S754_zero false) by (vm_compute; reflexivity).
  destruct (Prim2SF x) as [s | [] | | [] m e]; cbn; try discriminate; auto.
Qed.

Lemma ltb_zero_above (x : float64) :
  (0 <? x)%float = true -> above_zero (Prim2SF x).
Proof.
  rewrite ltb_spec.
  replace (Prim2SF 0) with (S754_zero false) by (vm_compute; reflexivity).
  destruct (Prim2SF x) as [s | [] | | [] m e]; cbn; try discriminate; auto.
Qed.

(** *** Below [2^63] *)

Lemma digits2_pos_bound (m : positive) : Zpos m < 2 ^ Zpos (digits2_pos m).
Proof.
  induction m as [m IH | m IH |]; cbn [digits2_pos]; [| | reflexivity];
    rewrite Pos2Z.inj_succ, Z.pow_succ_r by lia; lia.
Qed.

Lemma valid_mantissa_bound (m : positive) (e : Z) :
  valid_binary (S754_finite false m e) = true -> Zpos m < 9007199254740992.
Proof.
  cbn [SpecFloat.valid_binary]. unfold bounded, canonical_mantissa, fexp.
  intros H. apply andb_true_iff in H. destruct H as [H _].
  apply Z.eqb_eq in H.
  pose proof (digits2_pos_bound m) as Hd.
  assert (Hle : Zpos (digits2_pos m) <= 53) by (unfold prec in H; lia).
  apply Z.lt_le_trans with (1 := Hd).
  change 9007199254740992 with (2 ^ 53). apply Z.pow_le_mono_r; lia.
Qed.

Lemma below_two63 (m : positive) (e : Z) :
  valid_binary (S754_finite false m e) = true ->
  SFltb (S754_finite false m e) (Prim2SF two63) = true ->
  0 <= magnitude m e <= maxInt64.
Proof.
  intros Hv Hlt. pose proof (valid_mantissa_bound m e Hv) as Hm.
  split; [apply magnitude_bounds |].
  assert (Htwo : Prim2SF two63 = S754_finite false 4503599627370496 11)
    by (vm_compute; reflexivity).
  rewrite Htwo in Hlt.
  unfold SFltb, SFcompare in Hlt.
  unfold magnitude. change maxInt64 with 9223372036854775807.
  destruct (Z.compare_spec e 11) as [-> | He | He]; try discriminate.
  - destruct (Pos.compare_cont Eq m 4503599627370496) eqn:Hc; try discriminate.
    assert (Hc' : (m < 4503599627370496)%positive) by exact Hc.
    apply Pos2Z.pos_lt_pos in Hc'.
    clear Hlt Hc. change (0 <=? 11) with true. cbv iota.
    change (2 ^ 11) with 2048. lia.
  - destruct (0 <=? e) eqn:E.
    + apply Z.leb_le in E.
      assert (H1 : 2 ^ e <= 1024).
      { change 1024 with (2 ^ 10). apply Z.pow_le_mono_r; lia. }
      assert (H2 : 0 < 2 ^ e) by (apply Z.pow_pos_nonneg; lia).
      apply Z.le_trans with (9007199254740991 * 1024); [| lia].
      apply Z.mul_le_mono_nonneg; lia.
    + apply Z.leb_gt in E.
      assert (H2 : 0 < 2 ^ (- e)) by (apply Z.pow_pos_nonneg; lia).
      apply Z.le_trans with (Zpos m); [| lia].
      apply Z.div_le_upper_bound; [exact H2 |].
      apply Z.le_trans with (1 * Zpos m); [lia |].
      apply Z.mul_le_mono_nonneg_r; lia.
Qed.


Local Open Scope R_scope.

(** *** The real number a binary64 number denotes *)

Lemma F2R_finite (x : float64) (s : bool) (m : positive) (e : Z) :
  Prim2SF x = S754_finite s m e -> F2R x = IZR (cond_Zopp s (Zpos m)) * bpow2 e.
Proof. intros H. unfold F2R. now rewrite H. Qed.

Lemma F2R_zero (x : float64) (s : bool) : Prim2SF x = S754_zero s -> F2R x = 0.
Proof. intros H. unfold F2R. now rewrite H. Qed.

Lemma SF2R_nonneg (x : spec_float) : nonneg_or_nan x -> 0 <= SF2R x.
Proof.
  destruct x as [s | s | | s m e]; cbn; try lra.
  intros ->. cbn. apply Rmult_le_pos; [apply IZR_le; lia | left; apply bpow2_pos].
Qed.


(** A positive number that does not reach [2^63] is converted by dropping
    its fraction. *)
Lemma int_of_float64_truncates (arch : GOARCH) (v : float64) :
  nonneg_or_nan (Prim2SF v) -> (v <? two63)%float = true ->
  (0 <= int_of_float64 arch v <= maxInt64)%Z /\
  int_of_float64 arch v = Rtrunc (F2R v) /\
  IZR (int_of_float64 arch v) <= F2R v < IZR (int_of_float64 arch v) + 1.
Proof.
  intros Hs Hlt. rewrite ltb_spec in Hlt.
  pose proof (Prim2SF_valid v) as Hv.
  unfold int_of_float64, F2R.
  destruct (Prim2SF v) as [s | s | | s m e] eqn:E; cbn in Hs.
  - cbn [truncate SF2R]. change (inInt64 0) with true. cbv iota.
    split; [unfold maxInt64; lia |].
    split; [symmetry; apply (Rtrunc_IZR 0) | lra].
  - subst s. discriminate.
  - discriminate.
  - subst s. cbn [truncate SF2R cond_Zopp].
    destruct (below_two63 m e Hv Hlt) as [H0 H1].
    assert (Hin : inInt64 (magnitude m e) = true).
    { apply inInt64_iff. unfold minInt64. lia. }
    rewrite Hin.
    destruct (magnitude_bounds m e) as [_ Hb].
    split; [lia |]. split; [| exact Hb].
    rewrite Rtrunc_nonneg by (apply Rle_trans with (2 := proj1 Hb); apply IZR_le; lia).
    symmetry. apply Zfloor_eq. exact Hb.
Qed.


End GoFacts.

(** ** The arrival-time generator *)

Module InterArrivalFacts.

Import Go Time PoissonLoad GoFacts Ln2Facts.

Local Open Scope R_scope.

(** *** The sample over the real numbers *)

Lemma ln_one_minus_nonpos (p : R) : 0 <= p < 1 -> ln (1 - p) <= 0.
Proof.
  intros [H0 H1]. destruct (Req_dec p 0) as [-> | Hp].
  - replace (1 - 0) with 1 by lra. rewrite ln_1. lra.
  - rewrite <- ln_1. left. apply ln_increasing; lra.
Qed.

Lemma exponentialSample_nonneg (r p : R) :
  0 < r -> 0 <= p < 1 -> 0 <= exponentialSample r p.
Proof.
  intros Hr Hp. unfold exponentialSample.
  pose proof (ln_one_minus_nonpos p Hp).
  apply Rmult_le_pos; [lra | left; now apply Rinv_0_lt_compat].
Qed.

Lemma Second_pos : 0 < IZR Second.
Proof. apply IZR_lt. unfold Second, Nanosecond. lia. Qed.

Lemma sampleNanos_nonneg (r p : R) :
  0 < r -> 0 <= p < 1 -> 0 <= sampleNanos r p.
Proof.
  intros Hr Hp. unfold sampleNanos.
  apply Rmult_le_pos; [| now apply exponentialSample_nonneg].
  left. apply Second_pos.
Qed.



(** *** The value the code computes *)

Lemma interArrivalTime_unfold (arch : GOARCH) (r : float64) (src : Rand.Source) :
  interArrivalTime arch r src =
  (int_of_float64 arch (computedNanos r (fst (Rand.Float64 src))),
   snd (Rand.Float64 src)).
Proof. reflexivity. Qed.

Lemma interArrivalTime_int64 (arch : GOARCH) (r : float64) (src : Rand.Source) :
  (minInt64 <= fst (interArrivalTime arch r src) <= maxInt64)%Z.
Proof. rewrite interArrivalTime_unfold. apply int_of_float64_range. Qed.


Lemma Second_float :
  Prim2SF (float64_of_int Second) = S754_finite false 8388608000000000 (-23).
Proof. vm_compute. reflexivity. Qed.

Lemma F2R_Second : F2R (float64_of_int Second) = IZR Second.
Proof.
  rewrite (F2R_finite _ _ _ _ Second_float).
  cbn [cond_Zopp]. unfold bpow2, Second, Nanosecond.
  change (0 <=? -23)%Z with false. cbv iota.
  change (2 ^ (- -23))%Z with 8388608%Z.
  change (1000000000 * 1)%Z with 1000000000%Z. lra.
Qed.

(** With a positive rate and a logarithm that is not positive, the division
    and the multiplication give a number that is not negative, or no
    number. *)
Lemma computedNanos_sign (r p : float64) :
  above_zero (Prim2SF r) -> (Log (1 - p) <=? 0)%float = true ->
  nonneg_or_nan (Prim2SF (computedNanos r p)).
Proof.
  intros Hr HL. unfold computedNanos.
  rewrite mul_spec, div_spec, opp_spec.
  apply SFmul_nonneg.
  - rewrite Second_float. reflexivity.
  - apply SFdiv_nonneg; [now apply leb_zero_nonpos | exact Hr].
Qed.

(** If moreover that number is below [2^63], the duration returned is its
    whole part. *)
Lemma interArrivalTime_whole_part
  (arch : GOARCH) (r : float64) (src : Rand.Source) :
  above_zero (Prim2SF r) ->
  (Log (1 - Rand.stream src (Rand.taken src)) <=? 0)%float = true ->
  (computedNanos r (Rand.stream src (Rand.taken src)) <? two63)%float = true ->
  (0 <= fst (interArrivalTime arch r src) <= maxInt64)%Z /\
  fst (interArrivalTime arch r src) =
    Rtrunc (F2R (computedNanos r (Rand.stream src (Rand.taken src)))) /\
  IZR (fst (interArrivalTime arch r src))
    <= F2R (computedNanos r (Rand.stream src (Rand.taken src)))
    < IZR (fst (interArrivalTime arch r src)) + 1.
Proof.
  intros Hr HL Hlt. rewrite interArrivalTime_unfold. cbn [fst Rand.Float64].
  apply int_of_float64_truncates; [now apply computedNanos_sign | exact Hlt].
Qed.

(** The draw [p = 0] gives the duration zero. *)
Lemma interArrivalTime_zero_draw (arch : GOARCH) (r : float64) (src : Rand.Source) :
  (0 <? r)%float = true -> Rand.stream src (Rand.taken src) = 0%float ->
  fst (interArrivalTime arch r src) = 0%Z.
Proof.
  intros Hr Hp. apply ltb_zero_above in Hr.
  rewrite interArrivalTime_unfold. cbn [fst Rand.Float64]. rewrite Hp.
  unfold int_of_float64, computedNanos.
  rewrite mul_spec, div_spec, opp_spec, Second_float.
  replace (Prim2SF (Log (1 - 0)%float)) with (S754_zero false)
    by (vm_compute; reflexivity).
  cbn [SFopp negb].
  destruct (Prim2SF r) as [s | s | | s m e]; cbn in Hr; try contradiction; subst s;
    reflexivity.
Qed.

(** *** Relative errors *)




(** *** The claims *)













End InterArrivalFacts.

(** ** The dispatch loop *)

Module ExecuteFacts.

Import Go Time PoissonLoad GoFacts InterArrivalFacts.

Local Open Scope Z_scope.

Lemma sum_snoc (l : list Z) (x : Z) :
  fold_right Z.add 0 (l ++ [x]) = fold_right Z.add 0 l + x.
Proof. induction l as [| y l IH]; simpl; lia. Qed.

Lemma sorted_snoc (l : list Z) (x : Z) :
  Sorted Z.le l -> Forall (fun y => y <= x) l -> Sorted Z.le (l ++ [x]).
Proof.
  induction l as [| y l IH]; intros Hs Hf; cbn.
  - repeat constructor.
  - inversion Hs as [| ? ? Hs' Hhd]; subst. inversion Hf as [| ? ? Hy Hf']; subst.
    constructor; [now apply IH |].
    destruct l as [| z l]; cbn; constructor; [exact Hy |].
    now inversion Hhd.
Qed.

Lemma skipn_cons {A : Type} (l : list A) (k : nat) :
  (k < length l)%nat -> exists a, skipn k l = a :: skipn (S k) l.
Proof.
  revert k. induction l as [| x l IH]; intros k Hk; cbn in Hk; [lia |].
  destruct k as [| k]; [now exists x |].
  apply IH. lia.
Qed.

Lemma driverSteps_snoc (sched : list Choice) (c : Choice) :
  driverSteps (sched ++ [c]) =
  (driverSteps sched + match c with Drive => 1 | Finish _ => 0 end)%nat.
Proof.
  unfold driverSteps. rewrite filter_app, length_app. now destruct c.
Qed.

Lemma remove_nth_split {A : Type} (l1 l2 : list A) (a : A) (k : nat) :
  length l1 = k ->
  firstn k (l1 ++ a :: l2) ++ skipn (S k) (l1 ++ a :: l2) = l1 ++ l2.
Proof.
  revert k. induction l1 as [| x l1 IH]; intros k Hk; subst k; cbn.
  - reflexivity.
  - f_equal. now apply IH.
Qed.

Section Run.

Variable arch : GOARCH.
Variable Action : Type.
Variable rl : poissonLoad.
Variable w : World.
Variable t0 : Time.
Variable src0 : Rand.Source.
Variable actions : list Action.

Abbreviation rate := (ExpectedActionsPerSecond (params rl)).
Abbreviation State := (State Action).
Abbreviation drive := (drive arch rl w).
Abbreviation step := (step arch rl w).
Abbreviation run := (run arch rl w).
Abbreviation sample := (sample arch rl src0).
Abbreviation schedulePoint := (schedulePoint arch rl t0 src0).

Lemma schedulePoint_0 : schedulePoint 0 = t0.
Proof. unfold PoissonLoad.schedulePoint. simpl. lia. Qed.

Lemma schedulePoint_S (i : nat) :
  schedulePoint (S i) = Add (schedulePoint i) (sample i).
Proof.
  unfold PoissonLoad.schedulePoint, Add.
  rewrite seq_S, map_app. cbn [map]. rewrite sum_snoc. simpl. lia.
Qed.

(** *** The steps, unfolded *)

Lemma drive_exit (s : State) :
  phase s = Scheduling [] ->
  drive s =
  {| phase := Draining;
     now := now s; readings := readings s;
     actionNextLaunch := actionNextLaunch s; source := source s;
     wg := wg s; running := running s; completed := completed s;
     launches := launches s; pauses := pauses s |}.
Proof. intros H. unfold PoissonLoad.drive. now rewrite H. Qed.

Lemma drive_launch (s : State) (a : Action) (rest : list Action) :
  phase s = Scheduling (a :: rest) ->
  let t1 := now s + Z.of_N (latency w (readings s)) in
  let d := Until t1 (actionNextLaunch s) in
  let t2 := Sleep d t1 + Z.of_N (latency w (S (readings s))) in
  drive s =
  {| phase := Scheduling rest;
     now := t2; readings := S (S (readings s));
     actionNextLaunch :=
       Add (actionNextLaunch s) (fst (interArrivalTime arch rate (source s)));
     source := snd (interArrivalTime arch rate (source s));
     wg := S (wg s);
     running := running s ++ [length (launches s)];
     completed := completed s;
     launches := launches s ++
       [{| action := a; due := actionNextLaunch s; launchedAt := t2 |}];
     pauses := pauses s ++
       [{| calledAt := t1; target := actionNextLaunch s; requested := d |}] |}.
Proof. intros H t1 d t2. unfold PoissonLoad.drive. now rewrite H. Qed.

Lemma drive_wait (s : State) :
  phase s = Draining ->
  drive s =
  if Nat.eqb (wg s) 0 then
    {| phase := Returned;
       now := now s; readings := readings s;
       actionNextLaunch := actionNextLaunch s; source := source s;
       wg := wg s; running := running s; completed := completed s;
       launches := launches s; pauses := pauses s |}
  else s.
Proof. intros H. unfold PoissonLoad.drive. now rewrite H. Qed.

Lemma drive_returned (s : State) : phase s = Returned -> drive s = s.
Proof. intros H. unfold PoissonLoad.drive. now rewrite H. Qed.

Lemma run_snoc (sched : list Choice) (c : Choice) (s : State) :
  run (sched ++ [c]) s = step (run sched s) c.
Proof. unfold PoissonLoad.run. now rewrite fold_left_app. Qed.

(** *** What every reachable state satisfies *)

Record Inv (s : State) : Prop := {
  inv_order : map action (launches s) ++ pending (phase s) = actions;
  inv_stream : Rand.stream (source s) = Rand.stream src0;
  inv_taken :
    Rand.taken (source s) = (Rand.taken src0 + length (launches s))%nat;
  inv_next : actionNextLaunch s = schedulePoint (length (launches s));
  inv_due :
    map due (launches s) = map schedulePoint (seq 0 (length (launches s)));
  inv_wg : wg s = length (running s);
  inv_goroutines :
    Permutation (running s ++ completed s) (seq 0 (length (launches s)));
  inv_sorted : Sorted Z.le (map launchedAt (launches s));
  inv_past : Forall (fun l => launchedAt l <= now s) (launches s);
  inv_not_early : Forall (fun l => due l <= launchedAt l) (launches s);
  inv_gap : actionNextLaunch s - now s <= maxDuration;
  inv_pauses :
    Forall (fun p =>
              requested p = Until (calledAt p) (target p) /\
              Z.max 0 (requested p) = Z.max 0 (target p - calledAt p))
           (pauses s);
  inv_targets : map target (pauses s) = map due (launches s);
  inv_returned : phase s = Returned -> wg s = 0%nat;
  inv_idle : launches s = [] -> now s = t0
}.

Lemma Inv_enter : Inv (Execute_enter t0 src0 actions).
Proof.
  constructor; cbn; auto using Permutation_refl; try discriminate.
  - now rewrite schedulePoint_0.
  - lia.
Qed.

Lemma source_eq (s : State) :
  Inv s ->
  source s =
  {| Rand.stream := Rand.stream src0;
     Rand.taken := (Rand.taken src0 + length (launches s))%nat |}.
Proof.
  intros I. pose proof (inv_stream s I) as H1. pose proof (inv_taken s I) as H2.
  destruct (source s) as [st tk]. simpl in H1, H2. now subst.
Qed.

Lemma Inv_drive (s : State) : Inv s -> Inv (drive s).
Proof.
  intros I. destruct (phase s) as [[| a rest] | |] eqn:Hph.
  - (* the loop is over *)
    rewrite (drive_exit s Hph).
    destruct I. constructor; cbn; try assumption; try discriminate.
    now rewrite Hph in inv_order0.
  - (* one iteration *)
    rewrite (drive_launch s a rest Hph). cbv zeta.
    pose proof (source_eq s I) as Hsrc.
    pose proof (interArrivalTime_int64 arch rate (source s)) as Hiat.
    pose proof (N2Z.is_nonneg (latency w (readings s))) as Hl1.
    pose proof (N2Z.is_nonneg (latency w (S (readings s)))) as Hl2.
    assert (Hsample :
      fst (interArrivalTime arch rate (source s)) = sample (length (launches s))).
    { unfold PoissonLoad.sample. now rewrite Hsrc. }
    destruct I. rewrite Hph in inv_order0. cbn [pending] in inv_order0.
    assert (Hmin : minDuration < 0) by (unfold minDuration, minInt64; lia).
    assert (Hmax : 0 < maxDuration) by (unfold maxDuration, maxInt64; lia).
    set (t1 := now s + Z.of_N (latency w (readings s))).
    set (t2 := Sleep (Until t1 (actionNextLaunch s)) t1 +
               Z.of_N (latency w (S (readings s)))).
    assert (Ht2 : t1 <= t2 /\ actionNextLaunch s <= t2 /\ now s <= t1).
    { unfold t2, t1, Sleep, Until, Sub. lia. }
    constructor;
      cbn [phase now readings actionNextLaunch source wg running completed
           launches pauses pending].
    + rewrite map_app, <- app_assoc. exact inv_order0.
    + rewrite interArrivalTime_unfold. cbn. exact inv_stream0.
    + rewrite interArrivalTime_unfold. cbn. rewrite inv_taken0, length_app. cbn. lia.
    + rewrite length_app, Nat.add_1_r, schedulePoint_S, Hsample. now rewrite inv_next0.
    + rewrite length_app, Nat.add_1_r, seq_S, !map_app. cbn.
      now rewrite inv_due0, inv_next0.
    + rewrite length_app. cbn. lia.
    + rewrite length_app, Nat.add_1_r, seq_S. cbn [Nat.add].
      rewrite <- app_assoc.
      apply Permutation_trans with ((running s ++ completed s) ++ [length (launches s)]).
      * rewrite <- app_assoc. apply Permutation_app_head. apply Permutation_app_comm.
      * now apply Permutation_app_tail.
    + rewrite map_app. cbn [map launchedAt].
      apply sorted_snoc; [assumption |].
      rewrite Forall_map. eapply Forall_impl; [| exact inv_past0].
      cbn beta. intros l Hl. lia.
    + apply Forall_app. split.
      * eapply Forall_impl; [| exact inv_past0]. cbn beta. intros l Hl. lia.
      * constructor; [cbn; lia | constructor].
    + apply Forall_app. split; [assumption |].
      constructor; [| constructor]. cbn [due launchedAt]. lia.
    + unfold Add. unfold maxDuration in *. lia.
    + apply Forall_app. split; [assumption |].
      constructor; [| constructor]. cbn [requested target calledAt].
      split; [reflexivity |]. unfold Until, Sub. fold t1. lia.
    + rewrite !map_app. cbn. now rewrite inv_targets0.
    + discriminate.
    + intros Hnil. symmetry in Hnil. now apply app_cons_not_nil in Hnil.
  - (* wg.Wait() *)
    rewrite (drive_wait s Hph). destruct (Nat.eqb (wg s) 0) eqn:Hwg; [| exact I].
    destruct I. constructor; cbn; try assumption.
    + now rewrite Hph in inv_order0.
    + intros _. now apply Nat.eqb_eq.
  - now rewrite (drive_returned s Hph).
Qed.

Lemma Inv_finish (k : nat) (s : State) : Inv s -> Inv (finish k s).
Proof.
  intros I. unfold PoissonLoad.finish.
  destruct (nth_error (running s) k) as [i |] eqn:E; [| exact I].
  destruct (nth_error_split _ _ E) as (l1 & l2 & Hr & Hk).
  pose proof (remove_nth_split l1 l2 i k Hk) as Hrm. rewrite <- Hr in Hrm.
  destruct I.
  constructor;
    cbn [phase now readings actionNextLaunch source wg running completed
         launches pauses pending]; try assumption.
  - rewrite Hrm, inv_wg0, Hr, !length_app. cbn. lia.
  - rewrite Hrm. rewrite Hr in inv_goroutines0.
    apply Permutation_trans with (2 := inv_goroutines0).
    rewrite <- !app_assoc. apply Permutation_app_head.
    cbn. apply Permutation_trans with (i :: l2 ++ completed s).
    + rewrite app_assoc. apply Permutation_sym, Permutation_cons_append.
    + apply Permutation_refl.
  - intros Hret. rewrite (inv_returned0 Hret) in inv_wg0.
    rewrite Hr, length_app in inv_wg0. cbn in inv_wg0. lia.
Qed.

Lemma Inv_step (s : State) (c : Choice) : Inv s -> Inv (step s c).
Proof. destruct c; [apply Inv_drive | apply Inv_finish]. Qed.

Lemma Inv_run (sched : list Choice) (s : State) : Inv s -> Inv (run sched s).
Proof.
  revert s. induction sched as [| c sched IH]; intros s I; [exact I |].
  apply IH. now apply Inv_step.
Qed.

Lemma Inv_Execute (sched : list Choice) :
  Inv (Execute arch rl w t0 src0 actions sched).
Proof. apply Inv_run, Inv_enter. Qed.

(** *** How far the driver is after a number of its steps *)

Lemma finish_phase (k : nat) (s : State) : phase (finish k s) = phase s.
Proof. unfold PoissonLoad.finish. now destruct (nth_error (running s) k). Qed.

Lemma Execute_snoc (sched : list Choice) (c : Choice) :
  Execute arch rl w t0 src0 actions (sched ++ [c]) =
  step (Execute arch rl w t0 src0 actions sched) c.
Proof. apply run_snoc. Qed.

Lemma phase_by_steps (sched : list Choice) :
  let s := Execute arch rl w t0 src0 actions sched in
  let k := driverSteps sched in
  ((k <= length actions)%nat -> phase s = Scheduling (skipn k actions)) /\
  ((length actions < k)%nat -> phase s = Draining \/ phase s = Returned).
Proof.
  induction sched as [| c sched IH] using rev_ind; cbv zeta.
  - split; [reflexivity | cbn; lia].
  - cbv zeta in IH. destruct IH as [IHs IHd].
    rewrite Execute_snoc, driverSteps_snoc.
    set (s := Execute arch rl w t0 src0 actions sched) in *.
    destruct c as [| j]; cbn [PoissonLoad.step].
    + (* the driver moves *)
      split; intros Hk.
      * assert (Hlt : (driverSteps sched < length actions)%nat) by lia.
        destruct (skipn_cons actions _ Hlt) as [a Ha].
        assert (Hph : phase s = Scheduling (a :: skipn (S (driverSteps sched)) actions)).
        { rewrite <- Ha. apply IHs. lia. }
        rewrite (drive_launch s _ _ Hph). cbn [phase].
        now rewrite Nat.add_1_r.
      * destruct (Nat.eq_dec (driverSteps sched) (length actions)) as [He | Hne].
        -- assert (Hph : phase s = Scheduling []).
           { rewrite IHs by lia. now rewrite He, skipn_all. }
           rewrite (drive_exit s Hph). now left.
        -- destruct IHd as [Hph | Hph]; [lia | |].
           ++ rewrite (drive_wait s Hph).
              destruct (Nat.eqb (wg s) 0); [now right | now left].
           ++ rewrite (drive_returned s Hph). now right.
    + (* an action returns *)
      rewrite finish_phase, Nat.add_0_r. now split.
Qed.

Lemma launched_prefix (sched : list Choice) :
  map action (launches (Execute arch rl w t0 src0 actions sched)) =
  firstn (driverSteps sched) actions.
Proof.
  pose proof (inv_order _ (Inv_Execute sched)) as Ho.
  destruct (phase_by_steps sched) as [Hs Hd].
  destruct (Nat.le_gt_cases (driverSteps sched) (length actions)) as [Hle | Hgt].
  - rewrite (Hs Hle) in Ho. cbn [pending] in Ho.
    apply app_inv_tail with (l := skipn (driverSteps sched) actions).
    rewrite Ho. symmetry. apply firstn_skipn.
  - rewrite firstn_all2 by lia.
    destruct (Hd Hgt) as [Hph | Hph]; rewrite Hph in Ho; cbn [pending] in Ho;
      now rewrite app_nil_r in Ho.
Qed.

(** After [k] steps of the driver, [min k n] of the [n] actions have been
    launched. *)
Lemma launches_count (sched : list Choice) :
  length (launches (Execute arch rl w t0 src0 actions sched)) =
  Nat.min (driverSteps sched) (length actions).
Proof.
  pose proof (launched_prefix sched) as H.
  apply (f_equal (@length _)) in H.
  now rewrite length_map, length_firstn in H.
Qed.

Lemma pauses_count (sched : list Choice) :
  length (pauses (Execute arch rl w t0 src0 actions sched)) =
  Nat.min (driverSteps sched) (length actions).
Proof.
  pose proof (inv_targets _ (Inv_Execute sched)) as H.
  apply (f_equal (@length _)) in H. rewrite !length_map in H.
  rewrite H. apply launches_count.
Qed.

Lemma schedule_closed_form (sched : list Choice) :
  let s := Execute arch rl w t0 src0 actions sched in
  map due (launches s) = map schedulePoint (seq 0 (length (launches s))) /\
  actionNextLaunch s = schedulePoint (length (launches s)).
Proof.
  cbv zeta. pose proof (Inv_Execute sched) as I.
  split; [apply (inv_due _ I) | apply (inv_next _ I)].
Qed.


(** C5. When [Execute] has returned, the counter of the wait group is zero,
    no started goroutine is still running, the goroutines that completed are
    exactly those of the launches, and every action supplied was launched. *)
Theorem returns_after_all_completed (sched : list Choice) :
  let s := Execute arch rl w t0 src0 actions sched in
  phase s = Returned ->
  wg s = 0%nat /\ running s = [] /\
  Permutation (completed s) (seq 0 (length (launches s))) /\
  length (completed s) = length (launches s) /\
  map action (launches s) = actions.
Proof.
  cbv zeta. intros Hret. pose proof (Inv_Execute sched) as I.
  pose proof (inv_returned _ I Hret) as Hwg.
  assert (Hrun : running (Execute arch rl w t0 src0 actions sched) = []).
  { apply length_zero_iff_nil. now rewrite <- (inv_wg _ I). }
  pose proof (inv_goroutines _ I) as Hperm. rewrite Hrun in Hperm. cbn in Hperm.
  repeat split; try assumption.
  - apply Permutation_length in Hperm. now rewrite length_seq in Hperm.
  - pose proof (inv_order _ I) as Ho. rewrite Hret in Ho. cbn in Ho.
    now rewrite app_nil_r in Ho.
Qed.

(** C6. The instants at which the actions are launched, in the order of the
    launches, never decrease from one launch to the next. *)
Theorem launch_instants_nondecreasing (sched : list Choice) :
  Sorted Z.le
    (map launchedAt (launches (Execute arch rl w t0 src0 actions sched))).
Proof. apply (inv_sorted _ (Inv_Execute sched)). Qed.

(** C7. In every iteration the duration handed to [time.Sleep] is
    [time.Until(actionNextLaunch)], and it suspends the driver for
    [max(0, actionNextLaunch - now)]: not at all when the instant is already
    past, and until the clock reads [actionNextLaunch] otherwise.  There is
    one such pause per launch, aimed at the instant the launch was scheduled
    for: after [k] steps of the driver, [min k n] pauses for [n] actions. *)
Theorem pause_is_time_until_next_launch (sched : list Choice) :
  let s := Execute arch rl w t0 src0 actions sched in
  Forall (fun p =>
            requested p = Until (calledAt p) (target p) /\
            Sleep (requested p) (calledAt p) =
              calledAt p + Z.max 0 (target p - calledAt p) /\
            (target p <= calledAt p ->
               Sleep (requested p) (calledAt p) = calledAt p) /\
            (calledAt p < target p ->
               Sleep (requested p) (calledAt p) = target p))
         (pauses s) /\
  map target (pauses s) = map due (launches s) /\
  length (pauses s) = Nat.min (driverSteps sched) (length actions).
Proof.
  cbv zeta. pose proof (Inv_Execute sched) as I. split; [| split].
  - eapply Forall_impl; [| exact (inv_pauses _ I)].
    cbn beta. intros p [Hreq Hmax]. unfold Sleep.
    repeat split; [assumption | lia | lia | lia].
  - apply (inv_targets _ I).
  - apply pauses_count.
Qed.

(** *** No actions *)

Lemma nothing_launched (sched : list Choice) :
  actions = [] ->
  let s := Execute arch rl w t0 src0 actions sched in
  launches s = [] /\ pauses s = [] /\ source s = src0 /\ now s = t0 /\
  wg s = 0%nat.
Proof.
  intros Hnil. cbv zeta. pose proof (Inv_Execute sched) as I.
  assert (Hl : launches (Execute arch rl w t0 src0 actions sched) = []).
  { pose proof (inv_order _ I) as Ho.
    apply (eq_trans Ho) in Hnil.
    apply app_eq_nil in Hnil. destruct Hnil as [Ho' _]. now apply map_eq_nil in Ho'. }
  repeat split.
  - exact Hl.
  - pose proof (inv_targets _ I) as Ht. rewrite Hl in Ht. now apply map_eq_nil in Ht.
  - rewrite (source_eq _ I), Hl. cbn. rewrite Nat.add_0_r. now destruct src0.
  - now apply (inv_idle _ I).
  - pose proof (inv_goroutines _ I) as Hp. rewrite Hl in Hp. cbn in Hp.
    apply Permutation_sym, Permutation_nil in Hp. apply app_eq_nil in Hp.
    rewrite (inv_wg _ I). now rewrite (proj1 Hp).
Qed.

Lemma phase_no_actions (sched : list Choice) :
  actions = [] ->
  phase (Execute arch rl w t0 src0 actions sched) =
  match driverSteps sched with
  | 0%nat => Scheduling []
  | 1%nat => Draining
  | _ => Returned
  end.
Proof.
  intros Hnil. induction sched as [| c sched IH] using rev_ind.
  - cbn. now rewrite Hnil.
  - rewrite Execute_snoc, driverSteps_snoc.
    destruct (nothing_launched sched Hnil) as (_ & _ & _ & _ & Hwg).
    set (s := Execute arch rl w t0 src0 actions sched) in *.
    destruct c as [| j]; cbn [PoissonLoad.step].
    + rewrite Nat.add_1_r.
      destruct (driverSteps sched) as [| [| n]].
      * now rewrite (drive_exit s IH).
      * rewrite (drive_wait s IH), Hwg. reflexivity.
      * now rewrite (drive_returned s IH).
    + now rewrite finish_phase, Nat.add_0_r.
Qed.

(** [Execute] does return when the actions do: under the eager schedule the
    driver ends in its caller. *)
Lemma run_eager_returns (l : list Action) (s : State) :
  phase s = Scheduling l -> wg s = 0%nat -> running s = [] ->
  phase (run (eager l) s) = Returned.
Proof.
  revert s. induction l as [| a l IH]; intros s Hph Hwg Hrun.
  - cbn. rewrite (drive_exit s Hph).
    rewrite drive_wait by reflexivity. cbn. now rewrite Hwg.
  - unfold eager. cbn [flat_map app PoissonLoad.run fold_left PoissonLoad.step].
    rewrite (drive_launch s a l Hph). cbv zeta.
    unfold PoissonLoad.finish at 1. cbn [running]. rewrite Hrun. cbn [app nth_error].
    apply IH; cbn; [reflexivity | now rewrite Hwg | reflexivity].
Qed.

Lemma Execute_returns :
  phase (Execute arch rl w t0 src0 actions (eager actions)) = Returned.
Proof. now apply run_eager_returns. Qed.

End Run.

(** C3. The instant an action is scheduled for is computed step by step,
    [next = previous + sample], from the clock read on entry: after [k]
    steps of the driver, [min k n] of the [n] actions have been launched,
    the action at position [i] (from 0) was scheduled for the start instant
    plus the sum of the first [i] inter-arrival samples, and
    [actionNextLaunch] holds that value for the next action.  The instants
    do not depend on how long the loop takes: a run in another world under
    another interleaving that has launched as many actions has scheduled
    them for the same instants. *)
Theorem schedule_points_accumulate
  (arch : GOARCH) (Action : Type) (rl : poissonLoad) (w : World) (t0 : Time)
  (src : Rand.Source) (actions : list Action) (sched : list Choice) :
  let s := Execute arch rl w t0 src actions sched in
  let point := schedulePoint arch rl t0 src in
  length (launches s) = Nat.min (driverSteps sched) (length actions) /\
  map due (launches s) = map point (seq 0 (length (launches s))) /\
  actionNextLaunch s = point (length (launches s)) /\
  point 0%nat = t0 /\
  (forall i, point (S i) = Add (point i) (sample arch rl src i)) /\
  (forall (w' : World) (sched' : list Choice),
     let s' := Execute arch rl w' t0 src actions sched' in
     length (launches s') = length (launches s) ->
     map due (launches s') = map due (launches s)).
Proof.
  cbv zeta.
  destruct (schedule_closed_form arch Action rl w t0 src actions sched)
    as [Hdue Hnext].
  repeat split.
  - apply launches_count.
  - exact Hdue.
  - exact Hnext.
  - apply schedulePoint_0.
  - apply schedulePoint_S.
  - intros w' sched' Hlen.
    destruct (schedule_closed_form arch Action rl w' t0 src actions sched')
      as [Hdue' _].
    now rewrite Hdue', Hdue, Hlen.
Qed.

(** C8. With no actions, whatever the mean rate: nothing is launched, no
    pause is taken, no inter-arrival sample is drawn and the clock stands
    where it stood on entry; the first step of the driver leaves the loop and
    its second returns from [wg.Wait()]. *)
Theorem Execute_no_actions
  (arch : GOARCH) (Action : Type) (rl : poissonLoad) (w : World) (t0 : Time)
  (src : Rand.Source) (sched : list Choice) :
  let s := Execute arch rl w t0 src (@nil Action) sched in
  launches s = [] /\ pauses s = [] /\ source s = src /\ now s = t0 /\
  phase s = match driverSteps sched with
            | 0%nat => Scheduling []
            | 1%nat => Draining
            | _ => Returned
            end.
Proof.
  cbv zeta.
  destruct (nothing_launched arch Action rl w t0 src [] sched eq_refl)
    as (Hl & Hp & Hs & Hn & _).
  repeat split; try assumption.
  now apply phase_no_actions.
Qed.

Lemma returns_after_all_completed_witness :
  let s := Execute amd64 unitRate promptWorld 0 (Rand.constant 0%float)
             [true; false] twoActions in
  phase s = Returned /\
  wg s = 0%nat /\ running s = [] /\
  Permutation (completed s) (seq 0 (length (launches s))) /\
  length (completed s) = length (launches s) /\
  map action (launches s) = [true; false].
Proof.
  cbv zeta.
  assert (H : phase (Execute amd64 unitRate promptWorld 0 (Rand.constant 0%float)
                       [true; false] twoActions) = Returned) by reflexivity.
  split; [exact H |].
  exact (returns_after_all_completed amd64 bool unitRate promptWorld 0
           (Rand.constant 0%float) [true; false] twoActions H).
Defined.

End ExecuteFacts.

(** ** The etcd-metrics measurement *)

Module EtcdMetricsFacts.

Import String EtcdMetrics.

Local Open Scope string_scope.

(** C10, as stated, fails: with the action ["restart"] and a provider that
    is not a string, [Execute] returns the error of the provider lookup,
    which does not name the action. *)
Lemma Execute_unknown_action_bad_provider :
  GetString examplePackages (ConfigParams _ restartConfigBadProvider) "action"
    = Ok "restart" /\
  Execute examplePackages [] (createEtcdMetricsMeasurement _)
    restartConfigBadProvider
    = Returns ([], Some "type assertion error: not a string: provider",
               createEtcdMetricsMeasurement _) /\
  "type assertion error: not a string: provider" <> unknownActionErrorf "restart".
Proof.
  split; [reflexivity |]. split; [reflexivity |]. discriminate.
Qed.

(** C10, amended. For every configuration whose action is a string other
    than ["start"] and ["gather"] and whose provider and host are read
    without error, [Execute] returns no summary and the error
    ["unknown action <action>"], and leaves the measurement, the collected
    metrics among it, as it was. *)
Theorem Execute_unknown_action
  (pkg : Packages) (inFlight : list nat) (e : etcdMetricsMeasurement pkg)
  (config : MeasurementConfig pkg) (action provider host : string) :
  GetString pkg (ConfigParams _ config) "action" = Ok action ->
  GetStringOrDefault pkg (ConfigParams _ config) "provider"
    (ClusterConfig_Provider pkg) = Ok provider ->
  GetStringOrDefault pkg (ConfigParams _ config) "host"
    (ClusterConfig_MasterIP pkg) = Ok host ->
  action <> "start" -> action <> "gather" ->
  Execute pkg inFlight e config =
  Returns ([], Some (unknownActionErrorf action), e).
Proof.
  intros Ha Hp Hh Hs Hg. unfold Execute. rewrite Ha, Hp, Hh.
  apply String.eqb_neq in Hs. apply String.eqb_neq in Hg.
  now rewrite Hs, Hg.
Qed.

Lemma Execute_unknown_action_witness :
  Execute examplePackages [] (createEtcdMetricsMeasurement _) restartConfig =
  Returns ([], Some (unknownActionErrorf "restart"), createEtcdMetricsMeasurement _).
Proof.
  apply (Execute_unknown_action examplePackages [] (createEtcdMetricsMeasurement _)
           restartConfig "restart" "gce" "10.0.0.1");
    try reflexivity; discriminate.
Defined.

End EtcdMetricsFacts.

(** * Further properties of the code *)

(** ** The arrival-time generator: the smallest draw *)

Module InterArrivalMore.

Import Go Time PoissonLoad GoFacts InterArrivalFacts.

(** X1. The draw [p = 0] gives the duration zero, at every rate [r > 0]. *)
Theorem zero_draw_zero_duration (arch : GOARCH) (r : float64) (src : Rand.Source) :
  (0 <? r)%float = true -> Rand.stream src (Rand.taken src) = 0%float ->
  fst (interArrivalTime arch r src) = 0%Z.
Proof. apply interArrivalTime_zero_draw. Qed.

Lemma zero_draw_zero_duration_witness :
  fst (interArrivalTime amd64 1000%float (Rand.constant 0%float)) = 0%Z.
Proof.
  apply (zero_draw_zero_duration amd64 1000%float (Rand.constant 0%float));
    reflexivity.
Defined.

End InterArrivalMore.

(** ** The dispatch loop: pauses, accounting and progress *)

Module DispatchMore.

Import Go Time PoissonLoad GoFacts InterArrivalFacts ExecuteFacts.

Local Open Scope Z_scope.

(** The longest pause the driver can ask for before the launch at position
    [i]: none before the first, the sample drawn after the previous launch
    before the others. *)
Definition sleepBound (arch : GOARCH) (rl : poissonLoad) (src : Rand.Source)
  (i : nat) : Duration :=
  match i with
  | O => 0
  | S k => sample arch rl src k
  end.

(** Two actions per second. *)
Definition twoPerSecond : poissonLoad :=
  newPoissonLoad {| ExpectedActionsPerSecond := 2%float |}.

Lemma sorted_map_seq (f : nat -> Z) (a n : nat) :
  (forall i, f i <= f (S i)) -> Sorted Z.le (map f (seq a n)).
Proof.
  intros Hf. revert a. induction n as [| n IH]; intros a; cbn.
  - constructor.
  - constructor; [apply IH |].
    destruct n; cbn; constructor. apply Hf.
Qed.

Section More.

Variable arch : GOARCH.
Variable Action : Type.
Variable rl : poissonLoad.
Variable w : World.
Variable t0 : Time.
Variable src0 : Rand.Source.
Variable actions : list Action.

Abbreviation rate := (ExpectedActionsPerSecond (params rl)).
Abbreviation State := (State Action).
Abbreviation Inv := (Inv arch Action rl t0 src0 actions).
Abbreviation Execute := (Execute arch rl w t0 src0 actions).
Abbreviation bound := (sleepBound arch rl src0).

Lemma sleepBound_min (i : nat) : minDuration <= bound i.
Proof.
  destruct i as [| k]; cbn [sleepBound].
  - unfold minDuration, minInt64. lia.
  - unfold sample, minDuration. apply (proj1 (interArrivalTime_int64 _ _ _)).
Qed.

Lemma Execute_app (sched more : list Choice) :
  Execute (sched ++ more) = run arch rl w more (Execute sched).
Proof. unfold PoissonLoad.Execute, PoissonLoad.run. apply fold_left_app. Qed.

Lemma pauses_as_many_as_launches (s : State) :
  Inv s -> length (pauses s) = length (launches s).
Proof.
  intros I. pose proof (inv_targets _ _ _ _ _ _ _ I) as H.
  apply (f_equal (@length _)) in H. now rewrite !length_map in H.
Qed.

(** *** The driver catches up: it never asks for more than one sample *)

Record Catchup (s : State) : Prop := {
  cu_gap : actionNextLaunch s - now s <= bound (length (launches s));
  cu_pauses :
    Forall2 Z.le (map requested (pauses s))
      (map bound (seq 0 (length (launches s))))
}.

Lemma Catchup_enter : Catchup (Execute_enter t0 src0 actions).
Proof. constructor; cbn; [lia | constructor]. Qed.

Lemma Catchup_drive (s : State) :
  Inv s -> Catchup s -> Catchup (drive arch rl w s).
Proof.
  intros I [Hgap Hp]. destruct (phase s) as [[| a rest] | |] eqn:Hph.
  - rewrite (drive_exit _ _ _ _ s Hph). now constructor.
  - rewrite (drive_launch _ _ _ _ s a rest Hph). cbv zeta.
    pose proof (source_eq _ _ _ _ _ _ s I) as Hsrc.
    pose proof (inv_gap _ _ _ _ _ _ _ I) as Hmax.
    pose proof (N2Z.is_nonneg (latency w (readings s))) as Hl1.
    pose proof (N2Z.is_nonneg (latency w (S (readings s)))) as Hl2.
    pose proof (sleepBound_min (length (launches s))) as Hmin.
    assert (Hsample :
      fst (interArrivalTime arch rate (source s)) =
      sample arch rl src0 (length (launches s))).
    { unfold sample. now rewrite Hsrc. }
    assert (Hneg : minDuration < 0) by (unfold minDuration, minInt64; lia).
    constructor; cbn [now actionNextLaunch launches pauses];
      rewrite length_app, Nat.add_1_r.
    + cbn [sleepBound]. rewrite <- Hsample.
      unfold Add, Sleep, Until, Sub. lia.
    + rewrite seq_S, !map_app. apply Forall2_app; [exact Hp |].
      cbn. constructor; [| constructor].
      unfold Until, Sub. lia.
  - rewrite (drive_wait _ _ _ _ s Hph).
    destruct (Nat.eqb (wg s) 0); now constructor.
  - now rewrite (drive_returned _ _ _ _ s Hph).
Qed.

Lemma Catchup_finish (k : nat) (s : State) : Catchup s -> Catchup (finish k s).
Proof.
  intros [Hgap Hp]. unfold finish.
  destruct (nth_error (running s) k); now constructor.
Qed.

Lemma Catchup_run (sched : list Choice) (s : State) :
  Inv s -> Catchup s -> Inv (run arch rl w sched s) /\ Catchup (run arch rl w sched s).
Proof.
  revert s. induction sched as [| c sched IH]; intros s I C; [now split |].
  cbn [PoissonLoad.run fold_left]. apply IH.
  - now apply Inv_step.
  - destruct c; cbn [step]; [now apply Catchup_drive | now apply Catchup_finish].
Qed.

(** X4. Before the first launch the driver asks for no pause, and before
    every later one for at most the sample drawn after the previous launch:
    however late the loop runs, one call of [time.Sleep] never waits longer
    than one inter-arrival sample. *)
Theorem pause_at_most_previous_sample (sched : list Choice) :
  let s := Execute sched in
  Forall2 Z.le (map requested (pauses s))
    (map bound (seq 0 (length (pauses s)))).
Proof.
  cbv zeta. unfold PoissonLoad.Execute.
  destruct (Catchup_run sched _ (Inv_enter _ _ _ _ _ _) Catchup_enter) as [I C].
  rewrite (pauses_as_many_as_launches _ I). apply (cu_pauses _ C).
Qed.

(** X5. No action is launched before the instant it was scheduled for. *)
Theorem launch_not_before_schedule_point (sched : list Choice) :
  Forall (fun l => due l <= launchedAt l) (launches (Execute sched)).
Proof. apply (inv_not_early _ _ _ _ _ _ _ (Inv_Execute _ _ _ w _ _ _ sched)). Qed.

(** X6. One inter-arrival sample is drawn per launch, the one after the last
    launch included: after [k] steps of the driver the source has advanced by
    [min k n] draws, [n] the number of actions. *)
Theorem one_draw_per_launch (sched : list Choice) :
  source (Execute sched) =
  {| Rand.stream := Rand.stream src0;
     Rand.taken :=
       Rand.taken src0 + Nat.min (driverSteps sched) (length actions) |}.
Proof.
  rewrite (source_eq _ _ _ _ _ _ _ (Inv_Execute _ _ _ w _ _ _ sched)).
  pose proof (launched_prefix arch Action rl w t0 src0 actions sched) as H.
  apply (f_equal (@length _)) in H.
  rewrite length_map, length_firstn in H. now rewrite H.
Qed.

(** X7. At every moment the counter of the wait group is the number of
    goroutines still running, and the running and the completed goroutines
    together are the launched ones, each once: no goroutine completes twice
    and the counter never goes below zero. *)
Theorem goroutines_accounted (sched : list Choice) :
  let s := Execute sched in
  wg s = length (running s) /\
  NoDup (running s ++ completed s) /\
  (forall i, In i (running s ++ completed s) <-> (i < length (launches s))%nat) /\
  (length (running s) + length (completed s) = length (launches s))%nat.
Proof.
  cbv zeta. pose proof (Inv_Execute arch Action rl w t0 src0 actions sched) as I.
  pose proof (inv_goroutines _ _ _ _ _ _ _ I) as Hperm.
  repeat split.
  - apply (inv_wg _ _ _ _ _ _ _ I).
  - apply Permutation_NoDup with (1 := Permutation_sym Hperm). apply seq_NoDup.
  - intros Hin. apply (Permutation_in _ Hperm) in Hin. apply in_seq in Hin. lia.
  - intros Hlt. apply (Permutation_in _ (Permutation_sym Hperm)).
    apply in_seq. lia.
  - apply Permutation_length in Hperm.
    now rewrite length_app, length_seq in Hperm.
Qed.

(** *** Progress *)

Lemma drain (n : nat) (s : State) :
  length (running s) = n -> wg s = n ->
  let s' := run arch rl w (repeat (Finish 0) n) s in
  phase s' = phase s /\ wg s' = 0%nat /\ running s' = [].
Proof.
  revert s. induction n as [| n IH]; intros s Hlen Hwg; cbv zeta.
  - cbn. repeat split; [exact Hwg | now apply length_zero_iff_nil].
  - cbn [repeat PoissonLoad.run fold_left step].
    destruct (running s) as [| i r] eqn:Hr; [discriminate |].
    assert (Hf : finish 0 s =
      {| phase := phase s; now := now s; readings := readings s;
         actionNextLaunch := actionNextLaunch s; source := source s;
         wg := pred (wg s); running := r; completed := completed s ++ [i];
         launches := launches s; pauses := pauses s |}).
    { unfold finish. now rewrite Hr. }
    rewrite Hf. cbn in Hlen.
    match goal with |- context [fold_left _ _ ?s1] =>
      destruct (IH s1) as (A & B & C); cbn; [lia | lia |]
    end.
    repeat split; assumption.
Qed.

(** X8. No interleaving blocks the driver for good: after any schedule there
    is a continuation, in which the running actions return, that brings
    [Execute] back to its caller. *)
Theorem Execute_can_always_return (sched : list Choice) :
  exists more, phase (Execute (sched ++ more)) = Returned.
Proof.
  pose proof (Inv_Execute arch Action rl w t0 src0 actions sched) as I.
  set (s := Execute sched) in *.
  destruct (drain (length (running s)) s eq_refl (inv_wg _ _ _ _ _ _ _ I))
    as (Hph & Hwg & Hrun).
  set (s' := run arch rl w (repeat (Finish 0) (length (running s))) s) in *.
  assert (Hs' : forall tail,
    Execute (sched ++ repeat (Finish 0) (length (running s)) ++ tail) =
    run arch rl w tail s').
  { intros tail. rewrite Execute_app. fold s.
    unfold PoissonLoad.run. now rewrite fold_left_app. }
  destruct (phase s) as [l | |] eqn:Hs.
  - exists (repeat (Finish 0) (length (running s)) ++ eager l).
    rewrite Hs'. now apply run_eager_returns.
  - exists (repeat (Finish 0) (length (running s)) ++ [Drive]).
    rewrite Hs'. cbn. rewrite (drive_wait _ _ _ _ s' Hph), Hwg. reflexivity.
  - exists (repeat (Finish 0) (length (running s)) ++ []).
    rewrite Hs'. exact Hph.
Qed.

Lemma step_after_return (s : State) (c : Choice) :
  phase s = Returned -> running s = [] -> step arch rl w s c = s.
Proof.
  intros Hph Hrun. destruct c as [| k]; cbn.
  - now apply drive_returned.
  - unfold finish. rewrite Hrun. now destruct k.
Qed.

(** X9. Once [Execute] has returned nothing happens any more: whatever is
    scheduled afterwards launches nothing, completes nothing, draws nothing
    and leaves the clock of the run where it was. *)
Theorem nothing_after_return (sched more : list Choice) :
  phase (Execute sched) = Returned ->
  Execute (sched ++ more) = Execute sched.
Proof.
  intros Hret. rewrite Execute_app.
  pose proof (Inv_Execute arch Action rl w t0 src0 actions sched) as I.
  assert (Hrun : running (Execute sched) = []).
  { apply length_zero_iff_nil.
    rewrite <- (inv_wg _ _ _ _ _ _ _ I). now apply (inv_returned _ _ _ _ _ _ _ I). }
  induction more as [| c more IH]; [reflexivity |].
  cbn [PoissonLoad.run fold_left]. now rewrite step_after_return.
Qed.

(** *** Samples that are not negative *)

Lemma sample_nonneg (j : nat) :
  (0 <? rate)%float = true ->
  (Log (1 - Rand.stream src0 (Rand.taken src0 + j)) <=? 0)%float = true ->
  (computedNanos rate (Rand.stream src0 (Rand.taken src0 + j)) <? two63)%float
    = true ->
  0 <= sample arch rl src0 j.
Proof.
  intros Hr HL Hv. unfold sample.
  apply (interArrivalTime_whole_part arch rate
           {| Rand.stream := Rand.stream src0; Rand.taken := Rand.taken src0 + j |}
           (ltb_zero_above _ Hr) HL Hv).
Qed.

(** X10. With a positive rate and draws [p] for which [math.Log(1 - p)] is
    not positive and the product [1e9 * (-math.Log(1 - p) / rate)], computed
    in [float64], is below [2^63], the instants the actions are scheduled
    for never decrease from one action to the next. *)
Theorem schedule_points_nondecreasing (sched : list Choice) :
  (0 <? rate)%float = true ->
  (forall j,
     (Log (1 - Rand.stream src0 j) <=? 0)%float = true /\
     (computedNanos rate (Rand.stream src0 j) <? two63)%float = true) ->
  Sorted Z.le (map due (launches (Execute sched))).
Proof.
  intros Hr Hfit.
  destruct (schedule_closed_form arch Action rl w t0 src0 actions sched) as [Hdue _].
  rewrite Hdue. apply sorted_map_seq. intros i.
  rewrite (schedulePoint_S arch rl t0 src0 i). unfold Add.
  destruct (Hfit (Rand.taken src0 + i)%nat) as [HL Hv].
  pose proof (sample_nonneg i Hr HL Hv). lia.
Qed.

End More.

Lemma nothing_after_return_witness :
  Execute amd64 unitRate promptWorld 0 (Rand.constant 0%float) [true; false]
    (twoActions ++ [Drive; Finish 0]) =
  Execute amd64 unitRate promptWorld 0 (Rand.constant 0%float) [true; false] twoActions.
Proof.
  apply (nothing_after_return amd64 bool unitRate promptWorld 0
           (Rand.constant 0%float) [true; false] twoActions [Drive; Finish 0]).
  reflexivity.
Defined.

Lemma schedule_points_nondecreasing_witness :
  Sorted Z.le
    (map due (launches
       (Execute amd64 twoPerSecond promptWorld 0 (Rand.constant 0.5%float)
          [true; false] twoActions))).
Proof.
  apply (schedule_points_nondecreasing amd64 bool twoPerSecond promptWorld 0
           (Rand.constant 0.5%float) [true; false] twoActions).
  - vm_compute. reflexivity.
  - intros j. split; vm_compute; reflexivity.
Defined.

End DispatchMore.

(** ** The etcd-metrics measurement: what a call returns and leaves behind *)

Module EtcdMetricsMore.

Import String EtcdMetrics.

Local Open Scope string_scope.

(** An instance of the packages in which the master answers: three samples,
    the database size, one bucket of the WAL fsync histogram and a metric
    the measurement does not read. *)
Definition healthySamples : list (string * R) :=
  [("etcd_server_has_leader", 1%R);
   ("etcd_debugging_mvcc_db_total_size_in_bytes", 4096%R);
   ("etcd_disk_wal_fsync_duration_seconds_bucket", 3%R);
   ("etcd_debugging_mvcc_db_total_size_in_bytes", 8192%R)].

Definition healthyPackages : Packages :=
  {| Params := list (string * Dyn);
     GetString := fun m key => getString m key None;
     GetStringOrDefault := fun m key d => getString m key (Some d);
     GetDurationOrDefault := getDuration;
     ClusterConfig_Provider := "gce";
     ClusterConfig_MasterIP := "10.0.0.1";
     Sample := string * R;
     MetricName := fst;
     Value := snd;
     SSH := fun _ _ _ => ({| Code := 0; Stdout := "metrics" |}, None);
     ExtractMetricSamples := fun _ => Ok healthySamples;
     HistogramVec := list (string * R);
     emptyHistogramVec := [];
     ConvertSampleToBucket := fun sample h => (h ++ [sample])%list;
     sshErrorf := fun _ _ => "unexpected error in ssh connection to master" |}.

Definition gatherConfig (pkg : Packages) (params : Params pkg)
  : MeasurementConfig pkg := Build_MeasurementConfig pkg params.

Definition gatherParams : list (string * Dyn) := [("action", DString "gather")].

Definition gatherGkeParams : list (string * Dyn) :=
  [("action", DString "gather"); ("provider", DString "gke")].


(** The measurement after [close(e.stopCh)] and [e.wg.Wait()], with the
    metrics [m]. *)
Definition stopped (pkg : Packages) (e : etcdMetricsMeasurement pkg)
  (m : etcdMetrics pkg) : etcdMetricsMeasurement pkg :=
  {| stopChClosed := true;
     wg := wg pkg e - List.length (collectors pkg e);
     collectors := [];
     metrics := m |}.

Definition dbSizeMetric : string := "etcd_debugging_mvcc_db_total_size_in_bytes".

Section Calls.

Variable pkg : Packages.

Abbreviation Measurement := (etcdMetricsMeasurement pkg).
Abbreviation Config := (MeasurementConfig pkg).
Abbreviation action_of config := (GetString pkg (ConfigParams pkg config) "action").
Abbreviation provider_of config :=
  (GetStringOrDefault pkg (ConfigParams pkg config) "provider"
     (ClusterConfig_Provider pkg)).
Abbreviation host_of config :=
  (GetStringOrDefault pkg (ConfigParams pkg config) "host"
     (ClusterConfig_MasterIP pkg)).

Lemma stopAndSummarize_closed (inFlight : list nat) (e : Measurement)
  (provider host : string) :
  stopChClosed pkg e = true ->
  stopAndSummarize pkg inFlight e provider host = Panics "close of closed channel".
Proof. intros H. unfold stopAndSummarize. now rewrite H. Qed.

Lemma stopAndSummarize_open (inFlight : list nat) (e : Measurement)
  (provider host : string) :
  stopChClosed pkg e = false ->
  stopAndSummarize pkg inFlight e provider host =
  match getEtcdMetrics pkg provider host with
  | Err err => Returns (stopped pkg e (metrics pkg (collecting pkg inFlight e)), Some err)
  | Ok samples =>
      Returns (stopped pkg e
                 (fold_left (summarizeSample pkg) samples
                    (metrics pkg (collecting pkg inFlight e))), None)
  end.
Proof. intros H. unfold stopAndSummarize. now rewrite H. Qed.

Lemma Execute_gather (inFlight : list nat) (e : Measurement) (config : Config)
  (provider host : string) :
  action_of config = Ok "gather" ->
  provider_of config = Ok provider -> host_of config = Ok host ->
  Execute pkg inFlight e config =
  match stopAndSummarize pkg inFlight e provider host with
  | Panics why => Panics why
  | Returns (e', Some err) => Returns ([], Some err, e')
  | Returns (e', None) => Returns ([metrics pkg e'], None, e')
  end.
Proof. intros Ha Hp Hh. unfold Execute. now rewrite Ha, Hp, Hh. Qed.



(** A goroutine collecting for the provider ["gke"] fetches nothing. *)
Lemma collect_gke (c : Collector) (e : Measurement) :
  collectorProvider c = "gke" -> collect pkg c e = e.
Proof.
  intros Hp. unfold collect, getEtcdDatabaseSize, getEtcdMetrics.
  now rewrite Hp.
Qed.

Lemma collecting_gke (turns : list nat) (e : Measurement) :
  Forall (fun c => collectorProvider c = "gke") (collectors pkg e) ->
  collecting pkg turns e = e.
Proof.
  intros Hall. unfold collecting.
  induction turns as [| k turns IH]; cbn [fold_left]; [reflexivity |].
  destruct (nth_error (collectors pkg e) k) as [c |] eqn:Hk; [| exact IH].
  rewrite collect_gke; [exact IH |].
  rewrite Forall_forall in Hall. apply Hall. now apply nth_error_In with k.
Qed.




(** X12. A summary is returned only by a gather that meets an open channel
    and succeeds: it is then the one summary of the measurement's metrics,
    and the call has closed the channel and stopped the collectors. *)
Theorem summary_only_from_successful_gather
  (inFlight : list nat) (e e' : Measurement) (config : Config)
  (summaries : list (Summary pkg)) (err : option error) :
  Execute pkg inFlight e config = Returns (summaries, err, e') ->
  summaries <> [] ->
  err = None /\ summaries = [metrics pkg e'] /\
  action_of config = Ok "gather" /\
  stopChClosed pkg e = false /\ stopChClosed pkg e' = true /\
  collectors pkg e' = [].
Proof.
  unfold Execute.
  destruct (action_of config) as [action | err0];
    [| intros H Hne; inversion H; subst; contradiction].
  destruct (provider_of config) as [provider | err0];
    [| intros H Hne; inversion H; subst; contradiction].
  destruct (host_of config) as [host | err0];
    [| intros H Hne; inversion H; subst; contradiction].
  destruct (String.eqb action "start") eqn:Es.
  { destruct (GetDurationOrDefault pkg _ _ _);
      intros H Hne; inversion H; subst; contradiction. }
  destruct (String.eqb action "gather") eqn:Eg;
    [| intros H Hne; inversion H; subst; contradiction].
  apply String.eqb_eq in Eg. subst action.
  unfold stopAndSummarize. destruct (stopChClosed pkg e) eqn:Hc; [discriminate |].
  destruct (getEtcdMetrics pkg provider host);
    intros H Hne; inversion H; subst; cbn; [| contradiction].
  repeat split; reflexivity.
Qed.

(** X13. A measurement is gathered once: after a gather has reached
    [stopAndSummarize] and returned, with or without an error, every further
    gather panics on closing the closed channel. *)
Theorem second_gather_panics
  (inFlight1 inFlight2 : list nat) (e e1 : Measurement) (c1 c2 : Config)
  (p1 h1 p2 h2 : string) (summaries : list (Summary pkg)) (err : option error) :
  action_of c1 = Ok "gather" -> provider_of c1 = Ok p1 -> host_of c1 = Ok h1 ->
  action_of c2 = Ok "gather" -> provider_of c2 = Ok p2 -> host_of c2 = Ok h2 ->
  Execute pkg inFlight1 e c1 = Returns (summaries, err, e1) ->
  Execute pkg inFlight2 e1 c2 = Panics "close of closed channel".
Proof.
  intros Ha1 Hp1 Hh1 Ha2 Hp2 Hh2.
  rewrite (Execute_gather inFlight1 e c1 p1 h1 Ha1 Hp1 Hh1).
  rewrite (Execute_gather inFlight2 e1 c2 p2 h2 Ha2 Hp2 Hh2).
  destruct (stopChClosed pkg e) eqn:Hc.
  - rewrite (stopAndSummarize_closed inFlight1 e p1 h1 Hc). discriminate.
  - rewrite (stopAndSummarize_open inFlight1 e p1 h1 Hc).
    destruct (getEtcdMetrics pkg p1 h1); intros H; inversion H; subst;
      now rewrite stopAndSummarize_closed.
Qed.

(** X14. For the provider ["gke"] a collecting goroutine records nothing:
    no metrics are fetched, so the database size is not found and the
    measurement stays as it is. *)
Theorem gke_collector_records_nothing (c : Collector) (e : Measurement) :
  collectorProvider c = "gke" -> collect pkg c e = e.
Proof. apply collect_gke. Qed.

(** X15. For the provider ["gke"] a gather on an open channel succeeds
    without asking the master anything: it returns the metrics as the
    collecting goroutines leave them when they stop, closes the channel and
    stops the collectors.  If the goroutines collect for ["gke"] as well,
    the metrics returned are those the measurement had. *)
Theorem gke_gather_returns_collected_metrics
  (inFlight : list nat) (e : Measurement) (config : Config) (host : string) :
  action_of config = Ok "gather" -> provider_of config = Ok "gke" ->
  host_of config = Ok host -> stopChClosed pkg e = false ->
  Execute pkg inFlight e config =
  Returns ([metrics pkg (collecting pkg inFlight e)], None,
           stopped pkg e (metrics pkg (collecting pkg inFlight e))) /\
  (Forall (fun c => collectorProvider c = "gke") (collectors pkg e) ->
   Execute pkg inFlight e config =
   Returns ([metrics pkg e], None, stopped pkg e (metrics pkg e))).
Proof.
  intros Ha Hp Hh Hc.
  rewrite (Execute_gather inFlight e config "gke" host Ha Hp Hh).
  rewrite (stopAndSummarize_open inFlight e "gke" host Hc).
  split; [reflexivity |].
  intros Hall. now rewrite (collecting_gke inFlight e Hall).
Qed.


(** *** Which sample goes where *)






(** *** The database size *)

Lemma find_first {A : Type} (f : A -> bool) (l1 l2 : list A) (a : A) :
  (forall x, In x l1 -> f x = false) -> f a = true ->
  find f (l1 ++ a :: l2)%list = Some a.
Proof.
  intros Hl1 Ha. induction l1 as [| x l1 IH]; cbn.
  - now rewrite Ha.
  - rewrite (Hl1 x) by now left. apply IH. intros y Hy. apply Hl1. now right.
Qed.

Lemma find_nowhere {A : Type} (f : A -> bool) (l : list A) :
  (forall x, In x l -> f x = false) -> find f l = None.
Proof.
  intros Hl. induction l as [| x l IH]; cbn; [reflexivity |].
  rewrite (Hl x) by now left. apply IH. intros y Hy. apply Hl. now right.
Qed.

(** X18. When the metrics are fetched, [getEtcdDatabaseSize] returns the
    value of the first sample named
    [etcd_debugging_mvcc_db_total_size_in_bytes], whatever follows it, and
    the error "Couldn't find etcd database size metric" when no sample bears
    that name. *)
Theorem database_size_is_first_match
  (provider host : string) (samples : list (Sample pkg)) :
  getEtcdMetrics pkg provider host = Ok samples ->
  (forall l1 sample l2,
     samples = (l1 ++ sample :: l2)%list ->
     (forall x, In x l1 -> MetricName pkg x <> dbSizeMetric) ->
     MetricName pkg sample = dbSizeMetric ->
     getEtcdDatabaseSize pkg provider host = Ok (Value pkg sample)) /\
  ((forall x, In x samples -> MetricName pkg x <> dbSizeMetric) ->
   getEtcdDatabaseSize pkg provider host =
   Err "Couldn't find etcd database size metric").
Proof.
  intros Hm. unfold getEtcdDatabaseSize. rewrite Hm. split.
  - intros l1 sample l2 -> Hl1 Hs.
    rewrite (find_first _ l1 l2 sample); [reflexivity | |].
    + intros x Hx. apply String.eqb_neq. now apply Hl1.
    + now apply String.eqb_eq.
  - intros Hnone. rewrite find_nowhere; [reflexivity |].
    intros x Hx. apply String.eqb_neq. now apply Hnone.
Qed.

(** *** The master does not answer *)

(** X19. When the SSH command fails, by an error or by a non-zero exit code,
    for a provider other than ["gke"], a gather on an open channel returns
    the SSH error and no summary, and has all the same closed the channel
    and stopped the collectors; the metrics are as the collecting goroutines
    left them when they stopped. *)
Theorem failed_gather_still_stops
  (inFlight : list nat) (e : Measurement) (config : Config)
  (provider host : string) (res : SSHResult) (err : option error) :
  action_of config = Ok "gather" -> provider_of config = Ok provider ->
  host_of config = Ok host -> stopChClosed pkg e = false ->
  provider <> "gke" ->
  SSH pkg "curl http://localhost:2379/metrics" (host ++ ":22") provider
    = (res, err) ->
  err <> None \/ Code res <> 0%Z ->
  Execute pkg inFlight e config =
  Returns ([], Some (sshErrorf pkg (Code res) err),
           stopped pkg e (metrics pkg (collecting pkg inFlight e))).
Proof.
  intros Ha Hp Hh Hc Hgke Hssh Hfail.
  rewrite (Execute_gather inFlight e config provider host Ha Hp Hh).
  rewrite (stopAndSummarize_open inFlight e provider host Hc).
  unfold getEtcdMetrics. apply String.eqb_neq in Hgke. rewrite Hgke.
  cbv zeta. rewrite Hssh.
  destruct err as [msg |]; [reflexivity |].
  destruct Hfail as [Hfail | Hfail]; [contradiction |].
  apply Z.eqb_neq in Hfail. now rewrite Hfail.
Qed.

End Calls.


Lemma summary_only_from_successful_gather_witness :
  let e := createEtcdMetricsMeasurement healthyPackages in
  let config := gatherConfig healthyPackages gatherParams in
  let e' := stopped healthyPackages e
              (fold_left (summarizeSample healthyPackages)
                 healthySamples
                 (metrics _ e)) in
  @None error = None /\ [metrics _ e'] = [metrics _ e'] /\
  GetString healthyPackages (ConfigParams _ config) "action" = Ok "gather" /\
  stopChClosed _ e = false /\ stopChClosed _ e' = true /\
  collectors _ e' = [].
Proof.
  cbv zeta.
  apply (summary_only_from_successful_gather healthyPackages []
           (createEtcdMetricsMeasurement _)
           (stopped healthyPackages (createEtcdMetricsMeasurement _)
              (fold_left (summarizeSample healthyPackages)
                 healthySamples
                 (metrics _ (createEtcdMetricsMeasurement _))))
           (gatherConfig healthyPackages gatherParams) _ None).
  - reflexivity.
  - discriminate.
Defined.

Lemma second_gather_panics_witness :
  Execute healthyPackages []
    (stopped healthyPackages (createEtcdMetricsMeasurement _)
       (metrics _ (createEtcdMetricsMeasurement _)))
    (gatherConfig healthyPackages gatherParams)
  = Panics "close of closed channel".
Proof.
  apply (second_gather_panics healthyPackages [] []
           (createEtcdMetricsMeasurement _) _
           (gatherConfig healthyPackages gatherGkeParams)
           (gatherConfig healthyPackages gatherParams)
           "gke" "10.0.0.1" "gce" "10.0.0.1"
           [metrics _ (createEtcdMetricsMeasurement healthyPackages)] None);
    reflexivity.
Defined.

Lemma gke_collector_records_nothing_witness :
  collect healthyPackages
    {| collectorProvider := "gke"; collectorHost := "10.0.0.1";
       collectorInterval := Minute |}
    (createEtcdMetricsMeasurement _)
  = createEtcdMetricsMeasurement _.
Proof.
  apply (gke_collector_records_nothing healthyPackages). reflexivity.
Defined.

(** A measurement with one goroutine collecting from the master that
    answers, and a gather for ["gke"] during which that goroutine ends one
    turn: the size it found, 4096, is in the summary. *)
Lemma gke_gather_returns_collected_metrics_witness :
  let e := startCollecting healthyPackages (createEtcdMetricsMeasurement _)
             "gce" "10.0.0.1" Minute in
  let config := gatherConfig healthyPackages gatherGkeParams in
  (Execute healthyPackages [0%nat] e config =
   Returns ([metrics _ (collecting healthyPackages [0%nat] e)], None,
            stopped healthyPackages e
              (metrics _ (collecting healthyPackages [0%nat] e))) /\
   (Forall (fun c => collectorProvider c = "gke") (collectors _ e) ->
    Execute healthyPackages [0%nat] e config =
    Returns ([metrics _ e], None, stopped healthyPackages e (metrics _ e)))) /\
  MaxDatabaseSize _ (metrics _ (collecting healthyPackages [0%nat] e)) =
    Rmax 0 4096.
Proof.
  cbv zeta. split; [| reflexivity].
  apply (gke_gather_returns_collected_metrics healthyPackages [0%nat]
           (startCollecting healthyPackages (createEtcdMetricsMeasurement _)
              "gce" "10.0.0.1" Minute)
           (gatherConfig healthyPackages gatherGkeParams) "10.0.0.1");
    reflexivity.
Defined.


Lemma database_size_is_first_match_witness :
  getEtcdDatabaseSize healthyPackages "gce" "10.0.0.1" = Ok 4096%R.
Proof.
  apply (proj1 (database_size_is_first_match healthyPackages "gce" "10.0.0.1"
                  healthySamples eq_refl)
           [("etcd_server_has_leader", 1%R)]
           ("etcd_debugging_mvcc_db_total_size_in_bytes", 4096%R)
           [("etcd_disk_wal_fsync_duration_seconds_bucket", 3%R);
            ("etcd_debugging_mvcc_db_total_size_in_bytes", 8192%R)]).
  - reflexivity.
  - intros x [<- | []]. discriminate.
  - reflexivity.
Defined.

Lemma failed_gather_still_stops_witness :
  let e := createEtcdMetricsMeasurement examplePackages in
  Execute examplePackages [] e (gatherConfig examplePackages gatherParams) =
  Returns ([], Some "unexpected error in ssh connection to master",
           stopped examplePackages e (metrics _ (collecting examplePackages [] e))).
Proof.
  cbv zeta.
  apply (failed_gather_still_stops examplePackages []
           (createEtcdMetricsMeasurement _)
           (gatherConfig examplePackages gatherParams) "gce" "10.0.0.1"
           {| Code := 255; Stdout := EmptyString |}
           (Some "ssh: connection refused"));
    try reflexivity; try discriminate.
  left. discriminate.
Defined.

End EtcdMetricsMore.
